(** * TPT-Backend: transport entries, identifier allocation and user validators

    A shallow embedding of
      - src/models/TransportEntry.js  (financial year, pre-save ID allocator),
      - src/routes/transportEntries.js (list, read, create, update, delete,
        statistics),
      - src/utils/validators.js and the validators wired in src/models/User.js,
      - the PasswordReset model with the token handling of the reset route,
        and the error middleware,
    followed by the properties established about them.

    Conventions.  JavaScript strings are modelled by [string] (the code units
    below 128; every string the allocator builds is of that kind).  Counts,
    sequence numbers, page numbers and times are modelled by [Z]: the
    integer-valued Numbers on which JavaScript arithmetic is exact, with
    [None] for the [NaN] of a failed [parseInt].  Amounts of money are
    Numbers that need not be integers and are modelled by binary64
    floating-point values.  A MongoDB collection is the list of its
    documents in insertion order. *)

From Stdlib Require Import ZArith List Bool Lia Permutation.
From Stdlib Require Import Strings.String Strings.Ascii Numbers.DecimalString.
From Stdlib Require Numbers.DecimalPos.
From Stdlib Require Import Floats.PrimFloat.
Import ListNotations.

Open Scope string_scope.
Open Scope Z_scope.

(* ================================================================== *)
(** * JavaScript primitives used by the sources                          *)
(* ================================================================== *)

Module Js.

(** A Number that need not be an integer: an IEEE 754 binary64 value. *)
Definition Number : Set := float.

Definition isNaN (x : Number) : bool := negb (PrimFloat.eqb x x).

(** [x >= 0] on Numbers; false of [NaN]. *)
Definition atLeastZero (x : Number) : bool := PrimFloat.leb 0 x.

(** [x || dflt] on Numbers: [0], [-0] and [NaN] are falsy. *)
Definition orNumber (x dflt : Number) : Number :=
  if PrimFloat.eqb x 0 || isNaN x then dflt else x.

(** [Number.MAX_SAFE_INTEGER], 2^53 - 1: up to it every integer is a
    Number, and so is the successor of each. *)
Definition MAX_SAFE_INTEGER : Z := 9007199254740991.

(** [String(n)] for an integer-valued Number: its decimal digits, which
    is the text JavaScript produces below 1e21. *)
Definition toString (n : Z) : string :=
  NilEmpty.string_of_int (Z.to_int n).

(** [''.padStart(len, c)] with a one-character filler. *)
Fixpoint repeatChar (c : ascii) (k : nat) : string :=
  match k with
  | O => EmptyString
  | S k' => String c (repeatChar c k')
  end.

Definition padStart (len : nat) (c : ascii) (s : string) : string :=
  repeatChar c (len - String.length s) ++ s.

(** [s.slice(-k)]: the last [k] code units, the whole string when shorter. *)
Definition sliceLast (k : nat) (s : string) : string :=
  substring (String.length s - k) k s.

(** [s.split(sep)] with a one-character separator; never empty. *)
Fixpoint split (sep : ascii) (s : string) : list string :=
  match s with
  | EmptyString => [EmptyString]
  | String c rest =>
      if Ascii.eqb c sep then EmptyString :: split sep rest
      else match split sep rest with
           | [] => [String c EmptyString]
           | p :: ps => String c p :: ps
           end
  end.

(** [parts[parts.length - 1]]. *)
Definition lastPart (parts : list string) : string :=
  List.last parts EmptyString.

(** White space skipped by [parseInt] and removed by [trim]
    (TAB, LF, VT, FF, CR, SPACE). *)
Definition isWhiteSpace (c : ascii) : bool :=
  let n := N_of_ascii c in
  (((9 <=? n) && (n <=? 13)) || (n =? 32))%N.

Fixpoint trimStart (s : string) : string :=
  match s with
  | EmptyString => EmptyString
  | String c rest => if isWhiteSpace c then trimStart rest else s
  end.

Fixpoint trimEnd (s : string) : string :=
  match s with
  | EmptyString => EmptyString
  | String c rest =>
      match trimEnd rest with
      | EmptyString => if isWhiteSpace c then EmptyString else String c EmptyString
      | r => String c r
      end
  end.

Definition trim (s : string) : string := trimEnd (trimStart s).

Definition isUpper (c : ascii) : bool :=
  let n := N_of_ascii c in ((65 <=? n) && (n <=? 90))%N.

Definition isLower (c : ascii) : bool :=
  let n := N_of_ascii c in ((97 <=? n) && (n <=? 122))%N.

Definition isDigit (c : ascii) : bool :=
  let n := N_of_ascii c in ((48 <=? n) && (n <=? 57))%N.

Definition toUpperChar (c : ascii) : ascii :=
  if isLower c then ascii_of_N (N_of_ascii c - 32) else c.

Fixpoint toUpperCase (s : string) : string :=
  match s with
  | EmptyString => EmptyString
  | String c rest => String (toUpperChar c) (toUpperCase rest)
  end.

(** Value of a digit in the given radix (10 or 16), if it is one. *)
Definition digitValue (radix : Z) (c : ascii) : option Z :=
  let n := Z.of_N (N_of_ascii c) in
  let v :=
    if isDigit c then Some (n - 48)
    else if isLower c then Some (n - 97 + 10)
    else if isUpper c then Some (n - 65 + 10)
    else None in
  match v with
  | Some d => if d <? radix then Some d else None
  | None => None
  end.

(** The longest prefix of digits, folded left to right; [None] when the
    prefix is empty. *)
Fixpoint parseDigits (radix : Z) (s : string) (acc : option Z) : option Z :=
  match s with
  | EmptyString => acc
  | String c rest =>
      match digitValue radix c with
      | Some d =>
          parseDigits radix rest
            (Some (match acc with Some a => a * radix + d | None => d end))
      | None => acc
      end
  end.

Definition stripSign (s : string) : Z * string :=
  match s with
  | String c rest =>
      if Ascii.eqb c "-" then (-1, rest)
      else if Ascii.eqb c "+" then (1, rest)
      else (1, s)
  | EmptyString => (1, s)
  end.

Definition stripHexPrefix (s : string) : Z * string :=
  match s with
  | String c (String x rest) =>
      if Ascii.eqb c "0" && (Ascii.eqb x "x" || Ascii.eqb x "X")
      then (16, rest)
      else (10, s)
  | _ => (10, s)
  end.

(** [parseInt(s)] without a radix argument; [None] is [NaN]. *)
Definition parseInt (s : string) : option Z :=
  let '(sign, s1) := stripSign (trimStart s) in
  let '(radix, s2) := stripHexPrefix s1 in
  match parseDigits radix s2 None with
  | Some v => Some (sign * v)
  | None => None
  end.

(** [parseInt(x) || dflt] where [x] may be [undefined]: [NaN] and [0] are
    falsy. *)
Definition parseIntOr (x : option string) (dflt : Z) : Z :=
  match x with
  | None => dflt
  | Some s =>
      match parseInt s with
      | Some 0 | None => dflt
      | Some v => v
      end
  end.

(** Truthiness of a value that is a string or [undefined]. *)
Definition truthy (x : option string) : bool :=
  match x with
  | Some (String _ _) => true
  | _ => false
  end.

(** [Math.ceil(a / b)] for [a >= 0] and [b > 0]. *)
Definition ceilDiv (a b : Z) : Z := (a + b - 1) / b.

End Js.

Bind Scope float_scope with Js.Number.

(* ================================================================== *)
(** * src/utils/validators.js                                             *)
(* ================================================================== *)

Module Validators.

Fixpoint allChars (p : ascii -> bool) (s : string) : bool :=
  match s with
  | EmptyString => true
  | String c rest => p c && allChars p rest
  end.

(** [/^[cls]+$/.test(s)] for a character class [cls]. *)
Definition matchesClassPlus (cls : ascii -> bool) (s : string) : bool :=
  match s with
  | EmptyString => false
  | String _ _ => allChars cls s
  end.

Definition isLetter (c : ascii) : bool := Js.isUpper c || Js.isLower c.

(** [[a-zA-Z0-9\s&.-]] *)
Definition companyNameChar (c : ascii) : bool :=
  isLetter c || Js.isDigit c || Js.isWhiteSpace c
  || Ascii.eqb c "&" || Ascii.eqb c "." || Ascii.eqb c "-".

(** [[a-zA-Z\s.]] *)
Definition personNameChar (c : ascii) : bool :=
  isLetter c || Js.isWhiteSpace c || Ascii.eqb c ".".

Definition isValidMobile (mobile : string) : bool := true.
Definition isValidGST (gst : string) : bool := true.
Definition isValidPAN (pan : string) : bool := true.
Definition isValidIFSC (ifsc : string) : bool := true.
Definition isValidAccountNumber (accountNumber : string) : bool := true.

Definition isValidCompanyName (companyName : string) : bool :=
  if negb (Js.truthy (Some companyName))
     || (String.length (Js.trim companyName) <? 2)%nat
  then false
  else matchesClassPlus companyNameChar (Js.trim companyName).

Definition isValidPersonName (name : string) : bool :=
  if negb (Js.truthy (Some name))
     || (String.length (Js.trim name) <? 2)%nat
  then false
  else matchesClassPlus personNameChar (Js.trim name).

End Validators.

(* ================================================================== *)
(** * Mongoose schema paths of type String                               *)
(* ================================================================== *)

Module Mongoose.

(** One schema path: its setters, then its validators in declaration
    order.  Validators other than [required] are skipped on [undefined];
    the first validator that fails gives the error of the path. *)
Record PathSpec := {
  setter : string -> string;
  required : option string;
  maxlength : option (nat * string);
  validate : option ((string -> bool) * string)
}.

Definition requiredFails (p : PathSpec) (v : option string) : option string :=
  match required p, v with
  | Some msg, None => Some msg
  | Some msg, Some EmptyString => Some msg
  | _, _ => None
  end.

Definition maxlengthFails (p : PathSpec) (s : string) : option string :=
  match maxlength p with
  | Some (n, msg) => if (String.length s <=? n)%nat then None else Some msg
  | None => None
  end.

Definition validateFails (p : PathSpec) (s : string) : option string :=
  match validate p with
  | Some (f, msg) => if f s then None else Some msg
  | None => None
  end.

Definition checkPath (p : PathSpec) (v : option string) : list string :=
  let v' := option_map (setter p) v in
  match requiredFails p v' with
  | Some msg => [msg]
  | None =>
      match v' with
      | None => []
      | Some s =>
          match maxlengthFails p s with
          | Some msg => [msg]
          | None =>
              match validateFails p s with
              | Some msg => [msg]
              | None => []
              end
          end
      end
  end.

Definition upperTrim (s : string) : string := Js.toUpperCase (Js.trim s).
Definition noSetter (s : string) : string := s.

(** A 24-digit hexadecimal string cast to an ObjectId; [None] is a
    CastError. *)
Definition ObjectId := Z.

Definition isHexDigit (c : ascii) : bool :=
  match Js.digitValue 16 c with Some _ => true | None => false end.

Definition castObjectId (s : string) : option ObjectId :=
  if ((String.length s =? 24)%nat && Validators.allChars isHexDigit s)%bool
  then Js.parseDigits 16 s None
  else None.

End Mongoose.

(* ================================================================== *)
(** * src/models/User.js: the profile and bank paths of the schema       *)
(* ================================================================== *)

Module UserModel.
Import Mongoose.

(** The values handed to the schema; [None] is [undefined]. *)
Record Profile := {
  ownerName : option string;
  companyName : option string;
  mobileNumber : option string;
  address : option string;
  gstNumber : option string;
  panNumber : option string
}.

Record Bank := {
  bankName : option string;
  accountHolderName : option string;
  accountNumber : option string;
  ifscCode : option string;
  bankBranchName : option string
}.

Definition ownerNamePath : PathSpec :=
  {| setter := Js.trim;
     required := Some "Owner name is required";
     maxlength := Some (100%nat, "Owner name cannot be more than 100 characters");
     validate := Some (Validators.isValidPersonName,
                       "Please enter a valid owner name") |}.

Definition companyNamePath : PathSpec :=
  {| setter := Js.trim;
     required := Some "Company name is required";
     maxlength := Some (200%nat, "Company name cannot be more than 200 characters");
     validate := Some (Validators.isValidCompanyName,
                       "Please enter a valid company name") |}.

Definition mobileNumberPath : PathSpec :=
  {| setter := noSetter;
     required := Some "Mobile number is required";
     maxlength := None;
     validate := None |}.

Definition addressPath : PathSpec :=
  {| setter := Js.trim;
     required := Some "Address is required";
     maxlength := Some (500%nat, "Address cannot be more than 500 characters");
     validate := None |}.

Definition gstNumberPath : PathSpec :=
  {| setter := upperTrim; required := None; maxlength := None;
     validate := None |}.

Definition panNumberPath : PathSpec :=
  {| setter := upperTrim; required := None; maxlength := None;
     validate := Some (Validators.isValidPAN,
                       "Please enter a valid PAN number (format: AAAAA0000A)") |}.

Definition bankNamePath : PathSpec :=
  {| setter := Js.trim; required := None;
     maxlength := Some (100%nat, "Bank name cannot be more than 100 characters");
     validate := None |}.

Definition accountHolderNamePath : PathSpec :=
  {| setter := Js.trim; required := None;
     maxlength := Some (100%nat,
                        "Account holder name cannot be more than 100 characters");
     validate := None |}.

Definition accountNumberPath : PathSpec :=
  {| setter := Js.trim; required := None; maxlength := None;
     validate := Some (Validators.isValidAccountNumber,
                       "Account number must be between 9-18 digits") |}.

Definition ifscCodePath : PathSpec :=
  {| setter := upperTrim; required := None; maxlength := None;
     validate := Some (Validators.isValidIFSC,
                       "Please enter a valid IFSC code (format: ABCD0123456)") |}.

Definition bankBranchNamePath : PathSpec :=
  {| setter := Js.trim; required := None;
     maxlength := Some (200%nat,
                        "Bank branch name cannot be more than 200 characters");
     validate := None |}.

(** The validation errors of the profile and bank sub-documents; the
    document is stored only when the list is empty. *)
Definition validateProfile (p : Profile) : list string :=
  checkPath ownerNamePath (ownerName p)
  ++ checkPath companyNamePath (companyName p)
  ++ checkPath mobileNumberPath (mobileNumber p)
  ++ checkPath addressPath (address p)
  ++ checkPath gstNumberPath (gstNumber p)
  ++ checkPath panNumberPath (panNumber p).

Definition validateBank (b : Bank) : list string :=
  checkPath bankNamePath (bankName b)
  ++ checkPath accountHolderNamePath (accountHolderName b)
  ++ checkPath accountNumberPath (accountNumber b)
  ++ checkPath ifscCodePath (ifscCode b)
  ++ checkPath bankBranchNamePath (bankBranchName b).

End UserModel.

(* ================================================================== *)
(** * src/models/TransportEntry.js                                        *)
(* ================================================================== *)

Module TransportEntryModel.
Import Mongoose.

(** A [Date] seen through [getFullYear()], [getMonth()] (0 is January)
    and [getDate()]. *)
Record JsDate := {
  fullYear : Z;
  monthIndex : Z;
  dayOfMonth : Z
}.

Inductive Status := PENDING | IN_PROGRESS | COMPLETED | CANCELLED.

Definition statusName (s : Status) : string :=
  match s with
  | PENDING => "PENDING"
  | IN_PROGRESS => "IN_PROGRESS"
  | COMPLETED => "COMPLETED"
  | CANCELLED => "CANCELLED"
  end.

Definition statusOfName (s : string) : option Status :=
  if String.eqb s "PENDING" then Some PENDING
  else if String.eqb s "IN_PROGRESS" then Some IN_PROGRESS
  else if String.eqb s "COMPLETED" then Some COMPLETED
  else if String.eqb s "CANCELLED" then Some CANCELLED
  else None.

(** The paths of the two nested objects that the routes read; an absent
    path is [None]. *)
Record TransportBillData := {
  invoiceNo : option string;
  total : option Js.Number;
  status : option Status
}.

Record OwnerData := {
  ownerNameAndAddress : option string
}.

Record TransportEntry := {
  _id : ObjectId;
  id : option string;
  date : JsDate;
  vehicleNo : string;
  from : string;
  to : string;
  transportBillData : TransportBillData;
  ownerData : OwnerData;
  userId : ObjectId;
  createdAt : Z
}.

Definition withId (e : TransportEntry) (newId : option string) : TransportEntry :=
  {| _id := _id e; id := newId; date := date e; vehicleNo := vehicleNo e;
     from := from e; to := to e; transportBillData := transportBillData e;
     ownerData := ownerData e; userId := userId e; createdAt := createdAt e |}.

(** [getFinancialYear(date)] *)
Definition getFinancialYear (d : JsDate) : string :=
  let currentYear := fullYear d in
  let currentMonth := monthIndex d + 1 in
  if 4 <=? currentMonth then
    Js.toString currentYear ++ "-" ++ Js.sliceLast 2 (Js.toString (currentYear + 1))
  else
    Js.toString (currentYear - 1) ++ "-" ++ Js.sliceLast 2 (Js.toString currentYear).

Definition idPrefix (financialYear : string) : string :=
  "TE-FY" ++ financialYear ++ "-".

(** [{ id: { $regex: `^TE-FY${financialYear}-` } }]: the pattern is made
    of letters, digits and hyphens only, so it matches exactly the ids that
    start with it. *)
Definition matchesYear (financialYear : string) (e : TransportEntry) : bool :=
  match id e with
  | Some s => String.prefix (idPrefix financialYear) s
  | None => false
  end.

Definition idString (e : TransportEntry) : string :=
  match id e with
  | Some s => s
  | None => EmptyString
  end.

(** [.sort({ id: -1 })] followed by [findOne]: the document whose id is
    greatest in the binary order of strings. *)
Definition pickGreater (best : option TransportEntry) (e : TransportEntry)
  : option TransportEntry :=
  match best with
  | None => Some e
  | Some b => if String.ltb (idString b) (idString e) then Some e else Some b
  end.

Definition findLastEntry (financialYear : string) (docs : list TransportEntry)
  : option TransportEntry :=
  fold_left pickGreater (filter (matchesYear financialYear) docs) None.

(** The body of [if (lastEntry) { ... }] with [let sequence = 1];
    [lastSequence + 1] is the exact successor up to
    [Number.MAX_SAFE_INTEGER]. *)
Definition nextSequence (lastEntry : option TransportEntry) : Z :=
  match lastEntry with
  | None => 1
  | Some e =>
      let parts := Js.split "-" (idString e) in
      match Js.parseInt (Js.lastPart parts) with
      | Some lastSequence => lastSequence + 1
      | None => 1
      end
  end.

Definition formatId (financialYear : string) (sequence : Z) : string :=
  idPrefix financialYear ++ Js.padStart 4 "0" (Js.toString sequence).

Definition generateId (docs : list TransportEntry) (d : JsDate) : string :=
  let financialYear := getFinancialYear d in
  formatId financialYear (nextSequence (findLastEntry financialYear docs)).

(** [transportEntrySchema.pre('save', ...)] *)
Definition preSave (docs : list TransportEntry) (doc : TransportEntry)
  : TransportEntry :=
  if negb (Js.truthy (id doc)) then
    withId doc (Some (generateId docs (date doc)))
  else doc.

(** ** Schema paths read by the routes *)

Definition vehicleNoPath : PathSpec :=
  {| setter := fun s => Js.toUpperCase (Js.trim s);
     required := Some "Vehicle number is required";
     maxlength := Some (20%nat, "Vehicle number cannot be more than 20 characters");
     validate := None |}.

Definition fromPath : PathSpec :=
  {| setter := Js.trim;
     required := Some "From location is required";
     maxlength := Some (100%nat, "From location cannot be more than 100 characters");
     validate := None |}.

Definition toPath : PathSpec :=
  {| setter := Js.trim;
     required := Some "To location is required";
     maxlength := Some (100%nat, "To location cannot be more than 100 characters");
     validate := None |}.

Definition invoiceNoPath : PathSpec :=
  {| setter := Js.trim; required := None;
     maxlength := Some (50%nat, "Invoice number cannot be more than 50 characters");
     validate := None |}.

Definition ownerNameAndAddressPath : PathSpec :=
  {| setter := Js.trim; required := None;
     maxlength := Some (500%nat,
                        "Owner name and address cannot be more than 500 characters");
     validate := None |}.

(** [min: [0, 'Total cannot be negative']] *)
Definition checkTotal (v : option Js.Number) : list string :=
  match v with
  | Some t => if Js.atLeastZero t then [] else ["Total cannot be negative"]
  | None => []
  end.

(** The unique, sparse index on [id] and the index on [_id]. *)
Definition idTaken (docs : list TransportEntry) (s : string) : bool :=
  existsb (fun e => match id e with
                    | Some s' => String.eqb s' s
                    | None => false
                    end) docs.

Definition oidTaken (docs : list TransportEntry) (o : ObjectId) : bool :=
  existsb (fun e => _id e =? o) docs.

End TransportEntryModel.

(* ================================================================== *)
(** * src/routes/transportEntries.js                                      *)
(* ================================================================== *)

Module Routes.
Import Mongoose TransportEntryModel.

(** ** Requests *)

(** A request value that is parsed before use: a date or a number. *)
Inductive Field (A : Type) : Type :=
| Absent : Field A
| Malformed : Field A
| Given : A -> Field A.
Arguments Absent {A}.
Arguments Malformed {A}.
Arguments Given {A} _.

Record BillBody := {
  body_invoiceNo : option string;
  body_total : Field Js.Number;
  body_status : option string
}.

Record OwnerBody := {
  body_ownerNameAndAddress : option string
}.

(** [req.body] of POST and PUT: the paths that the validation chain and
    the setters of the schema read.  Other keys that a body can carry (an
    [_id], timestamps, update operators) are not represented. *)
Record EntryBody := {
  body_id : option string;
  body_userId : option string;
  body_date : Field JsDate;
  body_vehicleNo : option string;
  body_from : option string;
  body_to : option string;
  body_transportBillData : option BillBody;
  body_ownerData : option OwnerBody
}.

(** [req.query] of the list route. *)
Record ListQuery := {
  query_page : option string;
  query_limit : option string;
  query_search : option string;
  query_status : option string;
  query_from : option string;
  query_to : option string
}.

(** What a handler takes from its surroundings: the clock, the ObjectId
    generated for a new document, and the [$sum] accumulator of the store,
    which returns one Number for the Numbers of a group taken in the order
    of the collection.  How the store rounds is its own business and is
    left open. *)
Record Env := {
  now : JsDate;
  nowMs : Z;
  newObjectId : ObjectId;
  sumNumbers : list Js.Number -> Js.Number
}.

(** ** Responses *)

Record Pagination := {
  pg_total : Z;
  pg_page : Z;
  pg_pages : Z;
  pg_limit : Z;
  hasNext : bool;
  hasPrev : bool
}.

Record Stats := {
  totalEntries : Z;
  statusBreakdown : list (option Status * Z);
  totalAmount : Js.Number;
  recentEntries : Z
}.

Inductive Response :=
| ListOk (entries : list TransportEntry) (pagination : Pagination)
| EntryOk (data : TransportEntry)
| EntryCreated (data : TransportEntry)
| EntryUpdated (data : option TransportEntry)
| EntryDeleted
| StatsOk (data : Stats)
| ValidationFailed (errors : list string)
| InvalidEntryId
| EntryNotFound
| ServerError.

Definition statusCode (r : Response) : Z :=
  match r with
  | ListOk _ _ | EntryOk _ | EntryUpdated _ | EntryDeleted | StatsOk _ => 200
  | EntryCreated _ => 201
  | ValidationFailed _ | InvalidEntryId => 400
  | EntryNotFound => 404
  | ServerError => 500
  end.

(** ** express-validator chains *)

(** [.notEmpty()] followed by [.isLength({ max })]; a missing value is
    validated as the empty string. *)
Definition checkRequiredText (v : option string) (max : nat)
  (msgEmpty msgLong : string) : list string :=
  let s := match v with Some s => s | None => EmptyString end in
  (match s with EmptyString => [msgEmpty] | _ => [] end)
  ++ (if (String.length s <=? max)%nat then [] else [msgLong]).

Definition billTotal (b : EntryBody) : Field Js.Number :=
  match body_transportBillData b with
  | Some bb => body_total bb
  | None => Absent
  end.

Definition billStatus (b : EntryBody) : option string :=
  match body_transportBillData b with
  | Some bb => body_status bb
  | None => None
  end.

Definition validateTransportEntry (b : EntryBody) : list string :=
  checkRequiredText (body_vehicleNo b) 20
    "Vehicle number is required"
    "Vehicle number cannot be more than 20 characters"
  ++ checkRequiredText (body_from b) 100
    "From location is required"
    "From location cannot be more than 100 characters"
  ++ checkRequiredText (body_to b) 100
    "To location is required"
    "To location cannot be more than 100 characters"
  ++ (match body_date b with
      | Malformed => ["Date must be a valid date"]
      | _ => []
      end)
  ++ (match billTotal b with
      | Absent => []
      | Malformed => ["Total must be a number"]
      | Given t => if Js.atLeastZero t then [] else ["Total cannot be negative"]
      end)
  ++ (match billStatus b with
      | None => []
      | Some s =>
          match statusOfName s with
          | Some _ => []
          | None =>
              ["Status must be one of: PENDING, IN_PROGRESS, COMPLETED, CANCELLED"]
          end
      end).

(** [isInt]'s pattern [/^[-+]?[0-9]+$/] and the number the string
    denotes. *)
Definition isIntString (s : string) : bool :=
  Validators.matchesClassPlus Js.isDigit (snd (Js.stripSign s)).

Definition intValue (s : string) : option Z :=
  let '(sign, digits) := Js.stripSign s in
  option_map (Z.mul sign) (Js.parseDigits 10 digits None).

Definition isInt (min max : option Z) (s : string) : bool :=
  isIntString s
  && match intValue s with
     | Some v =>
         match min with Some m => m <=? v | None => true end
         && match max with Some m => v <=? m | None => true end
     | None => false
     end.

Definition validateQuery (q : ListQuery) : list string :=
  (match query_page q with
   | Some s => if isInt (Some 1) None s then []
               else ["Page must be a positive integer"]
   | None => []
   end)
  ++ (match query_limit q with
      | Some s => if isInt (Some 1) (Some 5000) s then []
                  else ["Limit must be between 1 and 5000"]
      | None => []
      end)
  ++ (match query_search q with
      | Some s => if (String.length s <=? 100)%nat then []
                  else ["Search term cannot be more than 100 characters"]
      | None => []
      end).

(** ** Store operations *)

(** [.sort({ createdAt: -1 })] as a stable insertion sort.  The store
    fixes the order of documents with different creation times only; what
    is stated about the order of a result either holds for every such
    order or assumes creation times that differ. *)
Fixpoint insertByCreatedAt (e : TransportEntry) (sorted : list TransportEntry)
  : list TransportEntry :=
  match sorted with
  | [] => [e]
  | x :: rest =>
      if createdAt x <? createdAt e then e :: x :: rest
      else x :: insertByCreatedAt e rest
  end.

Definition sortByCreatedAtDesc (docs : list TransportEntry) : list TransportEntry :=
  fold_left (fun acc e => insertByCreatedAt e acc) docs [].

(** [findOne({ _id, userId })] *)
Definition findOwned (docs : list TransportEntry) (oid uid : ObjectId)
  : option TransportEntry :=
  find (fun e => (_id e =? oid) && (userId e =? uid)) docs.

(** [findByIdAndDelete(_id)] *)
Fixpoint deleteById (docs : list TransportEntry) (oid : ObjectId)
  : list TransportEntry :=
  match docs with
  | [] => []
  | e :: rest => if _id e =? oid then rest else e :: deleteById rest oid
  end.

(** [$group: { _id: '$transportBillData.status', count: { $sum: 1 } }] *)
Definition sameStatus (a b : option Status) : bool :=
  match a, b with
  | None, None => true
  | Some x, Some y => String.eqb (statusName x) (statusName y)
  | _, _ => false
  end.

Fixpoint bump (k : option Status) (groups : list (option Status * Z))
  : list (option Status * Z) :=
  match groups with
  | [] => [(k, 1)]
  | (k', c) :: rest =>
      if sameStatus k k' then (k', c + 1) :: rest
      else (k', c) :: bump k rest
  end.

Definition groupByStatus (docs : list TransportEntry) : list (option Status * Z) :=
  fold_left (fun groups e => bump (status (transportBillData e)) groups) docs [].

(** [$group: { _id: null, total: { $sum: '$transportBillData.total' } }]:
    no group without documents; a document without the path adds nothing,
    and the sum of no Number at all is 0. *)
Definition groupTotal (env : Env) (docs : list TransportEntry) : list Js.Number :=
  match docs with
  | [] => []
  | _ :: _ =>
      match flat_map (fun e => match total (transportBillData e) with
                               | Some t => [t]
                               | None => []
                               end) docs with
      | [] => [0%float]
      | (_ :: _) as numbers => [sumNumbers env numbers]
      end
  end.

Definition countDocuments (p : TransportEntry -> bool) (docs : list TransportEntry) : Z :=
  Z.of_nat (List.length (filter p docs)).

(** ** Document construction and update *)

Definition castBill (dflt : bool) (bb : option BillBody) : TransportBillData :=
  {| invoiceNo :=
       match bb with
       | Some b => option_map Js.trim (body_invoiceNo b)
       | None => None
       end;
     total :=
       match bb with
       | Some {| body_total := Given t |} => Some t
       | _ => if dflt then Some 0%float else None
       end;
     status :=
       match bb with
       | Some {| body_status := Some s |} => statusOfName s
       | _ => if dflt then Some PENDING else None
       end |}.

Definition castOwner (ob : option OwnerBody) : OwnerData :=
  {| ownerNameAndAddress :=
       match ob with
       | Some o => option_map Js.trim (body_ownerNameAndAddress o)
       | None => None
       end |}.

Definition textOr (setter : string -> string) (v : option string) (old : string)
  : string :=
  match v with
  | Some s => setter s
  | None => old
  end.

(** Mongoose validators of the paths present in the data. *)
Definition schemaErrors (onCreate : bool) (b : EntryBody) : list string :=
  let present (v : option string) :=
    match v with Some _ => true | None => onCreate end in
  (if present (body_vehicleNo b) then checkPath vehicleNoPath (body_vehicleNo b) else [])
  ++ (if present (body_from b) then checkPath fromPath (body_from b) else [])
  ++ (if present (body_to b) then checkPath toPath (body_to b) else [])
  ++ (match body_transportBillData b with
      | Some bb =>
          checkPath invoiceNoPath (body_invoiceNo bb)
          ++ checkTotal (match body_total bb with Given t => Some t | _ => None end)
          ++ (match body_status bb with
              | Some s => match statusOfName s with
                          | Some _ => []
                          | None =>
                              ["`" ++ s ++ "` is not a valid enum value for path "
                               ++ "`transportBillData.status`."]
                          end
              | None => []
              end)
      | None => []
      end)
  ++ (match body_ownerData b with
      | Some ob => checkPath ownerNameAndAddressPath (body_ownerNameAndAddress ob)
      | None => []
      end).

(** Values that do not cast to the type of their path; on [create]
    they are reported with the validation errors. *)
Definition castFailures (b : EntryBody) : list string :=
  (match body_date b with
   | Malformed => ["Cast to date failed for path `date`"]
   | _ => []
   end)
  ++ (match billTotal b with
      | Malformed => ["Cast to Number failed for path `transportBillData.total`"]
      | _ => []
      end).

(** [new TransportEntry({ ...req.body, userId })] with the defaults and
    setters of the schema, for a body of the paths of [EntryBody]: the
    [_id] and the creation time are then the ones generated for the
    document. *)
Definition newDocument (env : Env) (uid : ObjectId) (b : EntryBody) : TransportEntry :=
  {| _id := newObjectId env;
     id := body_id b;
     date := match body_date b with Given d => d | _ => now env end;
     vehicleNo := textOr (setter vehicleNoPath) (body_vehicleNo b) EmptyString;
     from := textOr (setter fromPath) (body_from b) EmptyString;
     to := textOr (setter toPath) (body_to b) EmptyString;
     transportBillData := castBill true (body_transportBillData b);
     ownerData := castOwner (body_ownerData b);
     userId := uid;
     createdAt := nowMs env |}.

Inductive WriteResult :=
| Written (doc : TransportEntry) (docs : list TransportEntry)
| CastError
| ValidationError (errors : list string)
| DuplicateKey.

(** [TransportEntry.create(entryData)]: validate, run the pre-save hook,
    insert under the unique indexes. *)
Definition create (env : Env) (docs : list TransportEntry) (uid : ObjectId)
  (b : EntryBody) : WriteResult :=
  match (castFailures b ++ schemaErrors true b)%list with
  | (_ :: _) as errors => ValidationError errors
  | [] =>
      let doc := preSave docs (newDocument env uid b) in
      if oidTaken docs (_id doc) || idTaken docs (idString doc)
      then DuplicateKey
      else Written doc (docs ++ [doc])
  end.

(** The [$set] that [findByIdAndUpdate] derives from the top-level paths
    of [req.body]: every path present in the body replaces the stored
    one. *)
Definition applyUpdate (e : TransportEntry) (newUserId : option ObjectId)
  (b : EntryBody) : TransportEntry :=
  {| _id := _id e;
     id := match body_id b with Some s => Some s | None => id e end;
     date := match body_date b with Given d => d | _ => date e end;
     vehicleNo := textOr (setter vehicleNoPath) (body_vehicleNo b) (vehicleNo e);
     from := textOr (setter fromPath) (body_from b) (from e);
     to := textOr (setter toPath) (body_to b) (to e);
     transportBillData :=
       match body_transportBillData b with
       | Some bb => castBill false (Some bb)
       | None => transportBillData e
       end;
     ownerData :=
       match body_ownerData b with
       | Some ob => castOwner (Some ob)
       | None => ownerData e
       end;
     userId := match newUserId with Some u => u | None => userId e end;
     createdAt := createdAt e |}.

Fixpoint replaceById (docs : list TransportEntry) (e' : TransportEntry)
  : list TransportEntry :=
  match docs with
  | [] => []
  | e :: rest =>
      if _id e =? _id e' then e' :: rest else e :: replaceById rest e'
  end.

Definition castUpdate (b : EntryBody) : option (option ObjectId) :=
  match body_date b, billTotal b with
  | Malformed, _ | _, Malformed => None
  | _, _ =>
      match body_userId b with
      | None => Some None
      | Some s =>
          match castObjectId s with
          | Some u => Some (Some u)
          | None => None
          end
      end
  end.

(** [findByIdAndUpdate(_id, req.body, { new: true, runValidators: true })];
    [None] is the [null] returned when no document has the [_id]. *)
Definition findByIdAndUpdate (docs : list TransportEntry) (oid : ObjectId)
  (b : EntryBody) : option WriteResult :=
  match castUpdate b with
  | None => Some CastError
  | Some newUserId =>
      match schemaErrors false b with
      | (_ :: _) as errors => Some (ValidationError errors)
      | [] =>
          match find (fun e => _id e =? oid) docs with
          | None => None
          | Some e =>
              let e' := applyUpdate e newUserId b in
              if match body_id b with
                 | Some s => idTaken (deleteById docs oid) s
                 | None => false
                 end
              then Some DuplicateKey
              else Some (Written e' (replaceById docs e'))
          end
      end
  end.

(** ** Handlers

    Every handler runs after [protect], which yields [req.user._id]; the
    MongoDB regular-expression engine is a parameter: [regexI pattern] is
    the case-insensitive matcher of [pattern], or [None] when the store
    rejects the pattern. *)

Section Handlers.

Variable regexI : string -> option (string -> bool).

Definition testField (re : string -> bool) (v : option string) : bool :=
  match v with
  | Some s => re s
  | None => false
  end.

(** The [$or] of the six searched paths. *)
Definition searchCondition (re : string -> bool) (e : TransportEntry) : bool :=
  testField re (id e)
  || testField re (Some (vehicleNo e))
  || testField re (Some (from e))
  || testField re (Some (to e))
  || testField re (invoiceNo (transportBillData e))
  || testField re (ownerNameAndAddress (ownerData e)).

(** One optional condition of the query object: absent when the
    parameter is falsy, [None] when its pattern is rejected. *)
Definition optionalRegex (param : option string)
  (cond : (string -> bool) -> TransportEntry -> bool)
  : option (TransportEntry -> bool) :=
  if Js.truthy param then
    match regexI (match param with Some s => s | None => EmptyString end) with
    | Some re => Some (cond re)
    | None => None
    end
  else Some (fun _ => true).

Definition statusCondition (param : option string) (e : TransportEntry) : bool :=
  if Js.truthy param then
    match param, status (transportBillData e) with
    | Some s, Some st => String.eqb (statusName st) s
    | _, _ => false
    end
  else true.

(** [let query = { userId: req.user._id }] and the conditions added to
    it. *)
Definition buildQuery (uid : ObjectId) (q : ListQuery)
  : option (TransportEntry -> bool) :=
  match optionalRegex (query_search q) searchCondition,
        optionalRegex (query_from q) (fun re e => testField re (Some (from e))),
        optionalRegex (query_to q) (fun re e => testField re (Some (to e))) with
  | Some bySearch, Some byFrom, Some byTo =>
      Some (fun e =>
              (userId e =? uid)
              && bySearch e
              && statusCondition (query_status q) e
              && byFrom e
              && byTo e)
  | _, _, _ => None
  end.

(** [router.get('/')] *)
Definition getEntries (docs : list TransportEntry) (uid : ObjectId) (q : ListQuery)
  : Response :=
  match validateQuery q with
  | (_ :: _) as errors => ValidationFailed errors
  | [] =>
      let page := Js.parseIntOr (query_page q) 1 in
      let limit := Js.parseIntOr (query_limit q) 10 in
      let skip := (page - 1) * limit in
      match buildQuery uid q with
      | None => ServerError
      | Some query =>
          let entries :=
            firstn (Z.to_nat limit)
              (skipn (Z.to_nat skip) (sortByCreatedAtDesc (filter query docs))) in
          let total := countDocuments query docs in
          let pages := Js.ceilDiv total limit in
          ListOk entries
            {| pg_total := total;
               pg_page := page;
               pg_pages := pages;
               pg_limit := limit;
               hasNext := page <? pages;
               hasPrev := 1 <? page |}
      end
  end.

End Handlers.

(** [router.get('/:id')] *)
Definition getEntry (docs : list TransportEntry) (uid : ObjectId) (idParam : string)
  : Response :=
  match castObjectId idParam with
  | None => InvalidEntryId
  | Some oid =>
      match findOwned docs oid uid with
      | None => EntryNotFound
      | Some entry => EntryOk entry
      end
  end.

(** [router.post('/')]; the second component is the collection after the
    request. *)
Definition postEntry (env : Env) (docs : list TransportEntry) (uid : ObjectId)
  (b : EntryBody) : Response * list TransportEntry :=
  match validateTransportEntry b with
  | (_ :: _) as errors => (ValidationFailed errors, docs)
  | [] =>
      match create env docs uid b with
      | Written entry docs' => (EntryCreated entry, docs')
      | ValidationError errors => (ValidationFailed errors, docs)
      | CastError | DuplicateKey => (ServerError, docs)
      end
  end.

(** [router.put('/:id')] *)
Definition putEntry (docs : list TransportEntry) (uid : ObjectId) (idParam : string)
  (b : EntryBody) : Response * list TransportEntry :=
  match validateTransportEntry b with
  | (_ :: _) as errors => (ValidationFailed errors, docs)
  | [] =>
      match castObjectId idParam with
      | None => (InvalidEntryId, docs)
      | Some oid =>
          match findOwned docs oid uid with
          | None => (EntryNotFound, docs)
          | Some _ =>
              match findByIdAndUpdate docs oid b with
              | Some (Written updatedEntry docs') =>
                  (EntryUpdated (Some updatedEntry), docs')
              | Some CastError => (InvalidEntryId, docs)
              | Some (ValidationError errors) => (ValidationFailed errors, docs)
              | Some DuplicateKey => (ServerError, docs)
              | None => (EntryUpdated None, docs)
              end
          end
      end
  end.

(** [router.delete('/:id')] *)
Definition deleteEntry (docs : list TransportEntry) (uid : ObjectId) (idParam : string)
  : Response * list TransportEntry :=
  match castObjectId idParam with
  | None => (InvalidEntryId, docs)
  | Some oid =>
      match findOwned docs oid uid with
      | None => (EntryNotFound, docs)
      | Some _ => (EntryDeleted, deleteById docs oid)
      end
  end.

(** [router.get('/stats/summary')]; seven days are 604800000 ms. *)
Definition getStats (env : Env) (docs : list TransportEntry) (uid : ObjectId)
  : Response :=
  let mine := fun e => userId e =? uid in
  let totalEntries := countDocuments mine docs in
  let statusStats := groupByStatus (filter mine docs) in
  let totalAmount := groupTotal env (filter mine docs) in
  let sevenDaysAgo := nowMs env - 604800000 in
  let recentEntries :=
    countDocuments (fun e => mine e && (sevenDaysAgo <=? createdAt e)) docs in
  StatsOk
    {| totalEntries := totalEntries;
       statusBreakdown := statusStats;
       totalAmount :=
         match totalAmount with
         | t :: _ => Js.orNumber t 0
         | [] => 0%float
         end;
       recentEntries := recentEntries |}.

End Routes.

(* ================================================================== *)
(** * Reference quantities in the words of the specification            *)
(* ================================================================== *)

Module Spec.
Import Mongoose TransportEntryModel Routes.

(** April or later: [(calendarYear, calendarYear + 1)]; otherwise
    [(calendarYear - 1, calendarYear)].  January is month 1. *)
Definition monthNumber (d : JsDate) : Z := monthIndex d + 1.

Definition financialYearSpan (d : JsDate) : Z * Z :=
  if 4 <=? monthNumber d then (fullYear d, fullYear d + 1)
  else (fullYear d - 1, fullYear d).

(** The label of a span: the first year in full, the last two digits of
    the second. *)
Definition spanLabel (span : Z * Z) : string :=
  Js.toString (fst span) ++ "-" ++ Js.sliceLast 2 (Js.toString (snd span)).

Definition march31 (y : Z) : JsDate :=
  {| fullYear := y; monthIndex := 2; dayOfMonth := 31 |}.

Definition april1 (y : Z) : JsDate :=
  {| fullYear := y; monthIndex := 3; dayOfMonth := 1 |}.

(** [Math.ceil(total / limit)] as the least number of pages of [limit]
    records that hold [total] records. *)
Definition isCeiling (total limit pages : Z) : Prop :=
  (pages - 1) * limit < total <= pages * limit.

(** The suffix that [formatId] appends for a sequence value, and the
    checks run over the sequence values [0 .. count - 1]. *)
Definition sequenceSuffix (n : Z) : string :=
  Js.padStart 4 "0" (Js.toString n).

Fixpoint sequencesFrom (start : Z) (count : nat) : list Z :=
  match count with
  | O => []
  | S count' => start :: sequencesFrom (start + 1) count'
  end.

Definition firstSequences (count : Z) : list Z :=
  sequencesFrom 0 (Z.to_nat count).

Definition suffixBelowNext (n : Z) : bool :=
  String.ltb (sequenceSuffix n) (sequenceSuffix (n + 1)).

Definition noHyphen (s : string) : bool :=
  Validators.allChars (fun c => negb (Ascii.eqb c "-")) s.

Definition suffixReadsBack (n : Z) : bool :=
  noHyphen (sequenceSuffix n)
  && match Js.parseInt (sequenceSuffix n) with
     | Some v => v =? n
     | None => false
     end.

Definition suffixDiffersFrom (m n : Z) : bool :=
  negb (String.eqb (sequenceSuffix n) (sequenceSuffix m)).

(** A collection that holds exactly the identifiers of sequences
    [1 .. k] of one year, under the ObjectIds [1 .. k], in that order. *)
Definition allocated (fy : string) (k : Z) (docs : list TransportEntry) : Prop :=
  map id docs = map (fun i => Some (formatId fy i)) (sequencesFrom 1 (Z.to_nat k))
  /\ map _id docs = sequencesFrom 1 (Z.to_nat k).

(** The scope of one user and the quantities the statistics are
    compared with. *)
Definition entriesOf (uid : ObjectId) (docs : list TransportEntry)
  : list TransportEntry :=
  filter (fun e => userId e =? uid) docs.

Definition statusEq (a b : option Status) : {a = b} + {a <> b}.
Proof. decide equality. decide equality. Defined.

(** The number of documents whose status is [k]. *)
Definition countWithStatus (k : option Status) (docs : list TransportEntry) : Z :=
  Z.of_nat (count_occ statusEq (map (fun e => status (transportBillData e)) docs) k).

Definition sumOfCounts (groups : list (option Status * Z)) : Z :=
  fold_right (fun g acc => snd g + acc) 0 groups.



(** The count recorded for a status in a breakdown, 0 when it has no
    group. *)
Fixpoint countIn (k : option Status) (groups : list (option Status * Z)) : Z :=
  match groups with
  | [] => 0
  | (k', c) :: rest => if sameStatus k k' then c else countIn k rest
  end.

(** The groups after more documents have gone through the [$group]
    stage. *)
Definition groupsAfter (docs : list TransportEntry) (g : list (option Status * Z))
  : list (option Status * Z) :=
  fold_left (fun groups e => bump (status (transportBillData e)) groups) docs g.

End Spec.

(* ================================================================== *)
(** * Sample data                                                        *)
(* ================================================================== *)

Module Fixtures.
Import Mongoose TransportEntryModel Routes.

Definition toLowerChar (c : ascii) : ascii :=
  if Js.isUpper c then ascii_of_N (N_of_ascii c + 32) else c.

Fixpoint toLowerCase (s : string) : string :=
  match s with
  | EmptyString => EmptyString
  | String c rest => String (toLowerChar c) (toLowerCase rest)
  end.

(** A regular-expression engine restricted to patterns without
    metacharacters: case-insensitive containment. *)
Definition literalRegexI (pattern : string) : option (string -> bool) :=
  Some (fun s =>
          match String.index 0 (toLowerCase pattern) (toLowerCase s) with
          | Some _ => true
          | None => false
          end).

Definition alice : ObjectId := 1.
Definition bob : ObjectId := 2.

Definition oidText (n : nat) : string :=
  Js.padStart 24 "0" (Js.toString (Z.of_nat n)).

Definition sampleEntry (oid owner : ObjectId) (businessId : string) (d : JsDate)
  (amount : Js.Number) (st : Status) (created : Z) : TransportEntry :=
  {| _id := oid;
     id := Some businessId;
     date := d;
     vehicleNo := "MH12AB1234";
     from := "Pune";
     to := "Mumbai";
     transportBillData :=
       {| invoiceNo := Some "INV-1"; total := Some amount; status := Some st |};
     ownerData := {| ownerNameAndAddress := None |};
     userId := owner;
     createdAt := created |}.

Definition sampleDocs : list TransportEntry :=
  [ sampleEntry 1 alice "TE-FY2024-25-0001" (Spec.april1 2024) 100 PENDING 10;
    sampleEntry 2 bob "TE-FY2024-25-0002" (Spec.april1 2024) 250 COMPLETED 20;
    sampleEntry 3 alice "TE-FY2024-25-0003" (Spec.april1 2024) 40 PENDING 30 ].

Definition plainBody : EntryBody :=
  {| body_id := None;
     body_userId := None;
     body_date := Given (Spec.april1 2024);
     body_vehicleNo := Some "mh12ab1234";
     body_from := Some "Pune";
     body_to := Some "Mumbai";
     body_transportBillData := None;
     body_ownerData := None |}.

Definition withBodyId (b : EntryBody) (newId : option string)
  (newUserId : option string) : EntryBody :=
  {| body_id := newId;
     body_userId := newUserId;
     body_date := body_date b;
     body_vehicleNo := body_vehicleNo b;
     body_from := body_from b;
     body_to := body_to b;
     body_transportBillData := body_transportBillData b;
     body_ownerData := body_ownerData b |}.

Definition emptyQuery : ListQuery :=
  {| query_page := None; query_limit := None; query_search := None;
     query_status := None; query_from := None; query_to := None |}.

Definition pageQuery (page limit : string) : ListQuery :=
  {| query_page := Some page; query_limit := Some limit; query_search := None;
     query_status := None; query_from := None; query_to := None |}.

Definition searchQuery (search : string) : ListQuery :=
  {| query_page := None; query_limit := None; query_search := Some search;
     query_status := None; query_from := None; query_to := None |}.

(** Twenty-five entries of one user, created one after the other. *)
Definition twentyFive : list TransportEntry :=
  map (fun k => sampleEntry (Z.of_nat k) alice
                  (formatId "2024-25" (Z.of_nat k)) (Spec.april1 2024)
                  10 PENDING (Z.of_nat k))
      (seq 1 25).

(** A store that adds the Numbers of a group one after the other. *)
Definition addInOrder (numbers : list Js.Number) : Js.Number :=
  fold_left PrimFloat.add numbers 0%float.

(** The [k]-th request of a run of creations dated 1 April 2024: the
    clock and the generated ObjectId advance with [k]. *)
Definition envAt (k : Z) : Env :=
  {| now := Spec.april1 2024; nowMs := k; newObjectId := k;
     sumNumbers := addInOrder |}.

(** Requests [first .. first + count - 1] served one after the other;
    the responses are returned in order with the final collection. *)
Fixpoint serialCreates (first : Z) (count : nat) (docs : list TransportEntry)
  : list Response * list TransportEntry :=
  match count with
  | O => ([], docs)
  | S count' =>
      let '(r, docs1) := postEntry (envAt first) docs alice plainBody in
      let '(rs, docs2) := serialCreates (first + 1) count' docs1 in
      (r :: rs, docs2)
  end.

Definition createdId (r : Response) : option string :=
  match r with
  | EntryCreated e => id e
  | _ => None
  end.

End Fixtures.

(* ================================================================== *)
(** * src/utils/validators.js: password, sanitising and pincodes         *)
(* ================================================================== *)

Module ValidatorUtils.

Fixpoint existsChar (p : ascii -> bool) (s : string) : bool :=
  match s with
  | EmptyString => false
  | String c rest => p c || existsChar p rest
  end.

(** The twenty characters of the class tested for special characters;
    code 34 is the double quote. *)
Definition specialChars : list ascii :=
  ["!"; "@"; "#"; "$"; "%"; "^"; "&"; "*"; "("; ")"; ","; "."; "?";
   ascii_of_N 34; ":"; "{"; "}"; "|"; "<"; ">"]%char.

Definition isSpecial (c : ascii) : bool := existsb (Ascii.eqb c) specialChars.

Inductive Strength := Weak | Medium | Strong.

Record PasswordCheck := {
  isValid : bool;
  strength : Strength;
  issues : list string
}.

(** The messages pushed on [result.issues], in the order of the code. *)
Definition passwordIssues (password : string) : list string :=
  (if (String.length password <? 6)%nat
   then ["Password must be at least 6 characters long"] else [])
  ++ (if (String.length password <? 8)%nat
      then ["Consider using at least 8 characters for better security"] else [])
  ++ (if negb (existsChar Js.isLower password)
      then ["Password should contain lowercase letters"] else [])
  ++ (if negb (existsChar Js.isUpper password)
      then ["Password should contain uppercase letters"] else [])
  ++ (if negb (existsChar Js.isDigit password)
      then ["Password should contain numbers"] else [])
  ++ (if negb (existsChar isSpecial password)
      then ["Password should contain special characters"] else []).

Definition validatePasswordStrength (password : string) : PasswordCheck :=
  let found := passwordIssues password in
  if (List.length found =? 0)%nat then
    {| isValid := true; strength := Strong; issues := found |}
  else if (List.length found <=? 2)%nat then
    {| isValid := (6 <=? String.length password)%nat;
       strength := Medium; issues := found |}
  else
    {| isValid := (6 <=? String.length password)%nat;
       strength := Weak; issues := found |}.

(** [input.trim().replace(/[<>]/g, '')] on a string. *)
Fixpoint removeAngles (s : string) : string :=
  match s with
  | EmptyString => EmptyString
  | String c rest =>
      if Ascii.eqb c "<" || Ascii.eqb c ">" then removeAngles rest
      else String c (removeAngles rest)
  end.

Definition sanitizeString (input : string) : string :=
  removeAngles (Js.trim input).

(** [[1-9]] *)
Definition isNonZeroDigit (c : ascii) : bool :=
  Js.isDigit c && negb (Ascii.eqb c "0").

(** [[1-9][0-9]{5}] at the head of a string; the rest is returned. *)
Definition pincodeHead (s : string) : option (string * string) :=
  match s with
  | String c1 (String c2 (String c3 (String c4 (String c5 (String c6 rest))))) =>
      if isNonZeroDigit c1 && Js.isDigit c2 && Js.isDigit c3
         && Js.isDigit c4 && Js.isDigit c5 && Js.isDigit c6
      then Some (String c1 (String c2 (String c3 (String c4 (String c5
                   (String c6 EmptyString))))), rest)
      else None
  | _ => None
  end.

(** [/^[1-9][0-9]{5}$/.test(pincode)] *)
Definition isValidPincode (pincode : string) : bool :=
  match pincodeHead pincode with
  | Some (_, EmptyString) => true
  | _ => false
  end.

(** [\w] *)
Definition isWordChar (c : ascii) : bool :=
  Js.isUpper c || Js.isLower c || Js.isDigit c || Ascii.eqb c "_".

(** The leftmost match of [/\b[1-9][0-9]{5}\b/]: six digits that no word
    character precedes or follows.  [prevWord] tells whether the character
    before [s] is a word character. *)
Fixpoint matchPincode (prevWord : bool) (s : string) : option string :=
  match s with
  | EmptyString => None
  | String c rest =>
      match (if prevWord then None else pincodeHead s) with
      | Some (digits, EmptyString) => Some digits
      | Some (digits, String next _) =>
          if isWordChar next then matchPincode (isWordChar c) rest
          else Some digits
      | None => matchPincode (isWordChar c) rest
      end
  end.

Definition extractPincode (address : string) : option string :=
  matchPincode false address.

End ValidatorUtils.

(* ================================================================== *)
(** * The PasswordReset model and the reset route                        *)
(* ================================================================== *)

Module PasswordResetModel.
Import Mongoose.

Record PasswordReset := {
  reset_id : ObjectId;
  reset_userId : ObjectId;
  email : string;
  token : string;
  expiresAt : Z;
  used : bool
}.

(** [default: () => new Date(Date.now() + 60 * 60 * 1000)] *)
Definition defaultExpiresAt (nowMs : Z) : Z := nowMs + 60 * 60 * 1000.

(** [findOne({ token, used: false, expiresAt: { $gt: new Date() } })] *)
Definition isValidFor (tokenText : string) (nowMs : Z) (r : PasswordReset) : bool :=
  String.eqb (token r) tokenText && negb (used r) && (nowMs <? expiresAt r).

Definition findValidToken (docs : list PasswordReset) (tokenText : string)
  (nowMs : Z) : option PasswordReset :=
  find (isValidFor tokenText nowMs) docs.

(** [deleteMany({ $or: [{ expiresAt: { $lt: new Date() } }, { used: true }] })] *)
Definition cleanupExpired (docs : list PasswordReset) (nowMs : Z)
  : list PasswordReset :=
  filter (fun r => negb ((expiresAt r <? nowMs) || used r)) docs.

Definition deletedCount (before after : list PasswordReset) : Z :=
  Z.of_nat (List.length before) - Z.of_nat (List.length after).

Definition withUsed (r : PasswordReset) : PasswordReset :=
  {| reset_id := reset_id r; reset_userId := reset_userId r; email := email r;
     token := token r; expiresAt := expiresAt r; used := true |}.

(** [this.used = true; return this.save()]: the modified path is set on
    the stored document with the [_id] of [r]. *)
Fixpoint markAsUsed (docs : list PasswordReset) (r : PasswordReset)
  : list PasswordReset :=
  match docs with
  | [] => []
  | d :: rest =>
      if reset_id d =? reset_id r then withUsed d :: rest
      else d :: markAsUsed rest r
  end.

(** [deleteMany({ userId: user._id, _id: { $ne: resetRecord._id } })] *)
Definition deleteOtherTokens (docs : list PasswordReset) (uid keep : ObjectId)
  : list PasswordReset :=
  filter (fun d => negb ((reset_userId d =? uid) && negb (reset_id d =? keep))) docs.

Inductive ResetOutcome :=
| ResetDone
| ResetRejected (error : string).

(** The token handling of [router.post('/reset-password')] once the
    request has passed validation; [userExists] tells whether [populate]
    finds the user of a record. *)
Definition resetPassword (userExists : ObjectId -> bool)
  (docs : list PasswordReset) (tokenText : string) (nowMs : Z)
  : ResetOutcome * list PasswordReset :=
  match findValidToken docs tokenText nowMs with
  | None => (ResetRejected "Invalid or expired reset token", docs)
  | Some resetRecord =>
      if userExists (reset_userId resetRecord) then
        (ResetDone,
         deleteOtherTokens (markAsUsed docs resetRecord)
           (reset_userId resetRecord) (reset_id resetRecord))
      else (ResetRejected "User not found", docs)
  end.

End PasswordResetModel.

(* ================================================================== *)
(** * The error middleware                                               *)
(* ================================================================== *)

Module ErrorMiddleware.

(** The fields of [err] that the handler reads. *)
Record Err := {
  name : string;
  kind : option string;
  code : option Z;
  status : option Z;
  message : string;
  validationMessages : list string
}.

Record ErrorResponse := {
  statusCode : Z;
  error : string
}.

Definition isSome (expected : Z) (v : option Z) : bool :=
  match v with
  | Some x => x =? expected
  | None => false
  end.

Definition isKind (expected : string) (v : option string) : bool :=
  match v with
  | Some x => String.eqb x expected
  | None => false
  end.

(** [s.includes(part)] *)
Definition includes (s part : string) : bool :=
  match String.index 0 part s with
  | Some _ => true
  | None => false
  end.

(** One [if] of the handler: a later one overrides an earlier one. *)
Definition override (cond : bool) (new old : Z * string) : Z * string :=
  if cond then new else old.

(** [errorHandler]: [resStatus] is [res.statusCode] on entry and
    [nodeEnv] is [process.env.NODE_ENV]. *)
Definition errorHandler (err : Err) (resStatus : Z) (nodeEnv : option string)
  : ErrorResponse :=
  let s0 := (if resStatus =? 200 then 500 else resStatus, message err) in
  let s1 := override (String.eqb (name err) "CastError"
                      && isKind "ObjectId" (kind err))
              (404, "Resource not found") s0 in
  let s2 := override (isSome 11000 (code err))
              (400, "Duplicate field value entered") s1 in
  let s3 := override (String.eqb (name err) "ValidationError")
              (400, String.concat ", " (validationMessages err)) s2 in
  let s4 := override (String.eqb (name err) "JsonWebTokenError")
              (401, "Invalid token") s3 in
  let s5 := override (String.eqb (name err) "TokenExpiredError")
              (401, "Token expired") s4 in
  let s6 := override (isSome 429 (status err))
              (429, "Too many requests, please try again later") s5 in
  let s7 := override (Js.truthy (Some (message err))
                      && includes (message err) "CORS")
              (403, "CORS policy violation") s6 in
  {| statusCode := fst s7;
     error := if isKind "production" nodeEnv && (fst s7 =? 500)
              then "Internal server error"
              else snd s7 |}.

End ErrorMiddleware.

(* ================================================================== *)
(** * Requests and store conditions used in the statements               *)
(* ================================================================== *)

Module Requests.
Import Mongoose TransportEntryModel Routes.

Definition withPage (q : ListQuery) (page : string) : ListQuery :=
  {| query_page := Some page; query_limit := query_limit q;
     query_search := query_search q; query_status := query_status q;
     query_from := query_from q; query_to := query_to q |}.

Definition withLimit (q : ListQuery) (limit : string) : ListQuery :=
  {| query_page := query_page q; query_limit := Some limit;
     query_search := query_search q; query_status := query_status q;
     query_from := query_from q; query_to := query_to q |}.

Definition listedEntries (r : Response) : list TransportEntry :=
  match r with
  | ListOk entries _ => entries
  | _ => []
  end.

(** The page numbers [1 .. pages]. *)
Definition pageNumbers (pages : Z) : list Z :=
  Spec.sequencesFrom 1 (Z.to_nat pages).

(** The entries of the pages [1 .. pages] of a list request, read one
    after the other with the same filters and limit. *)
Definition pagesRead (regexI : string -> option (string -> bool))
  (docs : list TransportEntry) (uid : ObjectId) (q : ListQuery) (pages : Z)
  : list TransportEntry :=
  List.concat
    (map (fun p =>
            listedEntries (getEntries regexI docs uid (withPage q (Js.toString p))))
       (pageNumbers pages)).

(** What the indexes of the collection guarantee: no two documents with
    the same [_id], no two with the same business id. *)
Definition presentIds (docs : list TransportEntry) : list string :=
  flat_map (fun e => match id e with Some s => [s] | None => [] end) docs.

Definition indexesHold (docs : list TransportEntry) : Prop :=
  NoDup (map _id docs) /\ NoDup (presentIds docs).

Definition succeeded (r : Response) : bool :=
  (200 <=? Routes.statusCode r) && (Routes.statusCode r <? 300).

(** Descending creation times. *)
Fixpoint newestFirst (l : list TransportEntry) : Prop :=
  match l with
  | [] => True
  | x :: rest =>
      (forall y, In y rest -> createdAt y <= createdAt x) /\ newestFirst rest
  end.

End Requests.

(* ================================================================== *)
(** * Properties of the financial year                                   *)
(* ================================================================== *)

Module FinancialYearFacts.
Import TransportEntryModel Spec.

(** C2. For every date the allocator's financial-year label is the label
    of the span (year, year + 1) when the month is April or later and of
    (year - 1, year) otherwise; 31 March of year Y lies in (Y - 1)-Y and
    1 April of year Y in Y-(Y + 1). *)
Theorem getFinancialYear_span :
  (forall d, getFinancialYear d = spanLabel (financialYearSpan d))
  /\ (forall y, getFinancialYear (march31 y) = spanLabel (y - 1, y))
  /\ (forall y, getFinancialYear (april1 y) = spanLabel (y, y + 1))
  /\ getFinancialYear (march31 2024) = "2023-24"
  /\ getFinancialYear (april1 2024) = "2024-25".
Proof.
  repeat split.
  - intro d. unfold getFinancialYear, financialYearSpan, spanLabel, monthNumber.
    destruct (4 <=? monthIndex d + 1); reflexivity.
Qed.

End FinancialYearFacts.

(* ================================================================== *)
(** * Properties of the user validators                                  *)
(* ================================================================== *)

Module ValidatorFacts.
Import Validators Mongoose UserModel.

Lemma matchesClassPlus_allChars cls s :
  matchesClassPlus cls s = true <-> s <> EmptyString /\ allChars cls s = true.
Proof.
  destruct s as [|c rest]; simpl.
  - split; [discriminate | intros [H _]; now elim H].
  - split; [intro H; split; [discriminate | exact H] | intros [_ H]; exact H].
Qed.

Lemma length_ge_2_nonempty s : (2 <= String.length s)%nat -> s <> EmptyString.
Proof. destruct s; simpl; [lia | discriminate]. Qed.

Lemma isValidPersonName_iff name :
  isValidPersonName name = true
  <-> (2 <= String.length (Js.trim name))%nat
      /\ allChars personNameChar (Js.trim name) = true.
Proof.
  unfold isValidPersonName.
  destruct name as [|c rest].
  - simpl. split; [discriminate | intros [H _]; lia].
  - cbn [Js.truthy negb orb].
    destruct (Nat.ltb_spec (String.length (Js.trim (String c rest))) 2) as [Hlt|Hge].
    + split; [discriminate | intros [H _]; lia].
    + rewrite matchesClassPlus_allChars. split.
      * intros [_ H]. now split.
      * intros [_ H]. split; [now apply length_ge_2_nonempty | exact H].
Qed.

Lemma isValidCompanyName_iff name :
  isValidCompanyName name = true
  <-> (2 <= String.length (Js.trim name))%nat
      /\ allChars companyNameChar (Js.trim name) = true.
Proof.
  unfold isValidCompanyName.
  destruct name as [|c rest].
  - simpl. split; [discriminate | intros [H _]; lia].
  - cbn [Js.truthy negb orb].
    destruct (Nat.ltb_spec (String.length (Js.trim (String c rest))) 2) as [Hlt|Hge].
    + split; [discriminate | intros [H _]; lia].
    + rewrite matchesClassPlus_allChars. split.
      * intros [_ H]. now split.
      * intros [_ H]. split; [now apply length_ge_2_nonempty | exact H].
Qed.

(** C9, as the claim states it, fails: the owner-name and company-name
    validators reject strings that respect the length limits. *)
Lemma name_validators_not_stubs :
  isValidPersonName "R2D2" = false
  /\ isValidCompanyName "Acme (India)" = false
  /\ checkPath ownerNamePath (Some "R2D2") = ["Please enter a valid owner name"]
  /\ checkPath companyNamePath (Some "Acme (India)")
     = ["Please enter a valid company name"].
Proof. repeat split. Qed.

(** C9, amended. The five stub validators accept every string, and the
    schema checks no format on mobile number, address, GST number, PAN,
    account number and IFSC code; owner name and company name are checked:
    at least two characters after trimming, all of them letters, white
    space or dots (for a company name also digits, ampersand and hyphen). *)
Theorem validators_behaviour :
  (forall s, isValidMobile s = true /\ isValidGST s = true /\ isValidPAN s = true
             /\ isValidIFSC s = true /\ isValidAccountNumber s = true)
  /\ (forall v, checkPath gstNumberPath v = [] /\ checkPath panNumberPath v = []
                /\ checkPath accountNumberPath v = []
                /\ checkPath ifscCodePath v = [])
  /\ (forall s, checkPath mobileNumberPath (Some s) = [] <-> s <> EmptyString)
  /\ (forall s, checkPath addressPath (Some s) = []
                <-> Js.trim s <> EmptyString
                    /\ (String.length (Js.trim s) <= 500)%nat)
  /\ (forall s, isValidPersonName s = true
                <-> (2 <= String.length (Js.trim s))%nat
                    /\ allChars personNameChar (Js.trim s) = true)
  /\ (forall s, isValidCompanyName s = true
                <-> (2 <= String.length (Js.trim s))%nat
                    /\ allChars companyNameChar (Js.trim s) = true).
Proof.
  split; [intro s; repeat split |].
  split.
  { intros [s|]; repeat split. }
  split.
  { intro s. destruct s; simpl; split; try discriminate; try reflexivity.
    intro H; now elim H. }
  split.
  { intro s. unfold checkPath. cbn [option_map setter addressPath].
    unfold requiredFails, maxlengthFails, validateFails.
    cbn [required maxlength validate addressPath].
    destruct (Js.trim s) as [|c r] eqn:E.
    - split; [discriminate | intros [H _]; now elim H].
    - destruct (Nat.leb_spec (String.length (String c r)) 500).
      + split; [intros _; split; [discriminate | assumption] | reflexivity].
      + split; [discriminate | intros [_ H']; lia]. }
  split; [exact isValidPersonName_iff | exact isValidCompanyName_iff].
Qed.

End ValidatorFacts.

(* ================================================================== *)
(** * Properties of the targeted routes                                  *)
(* ================================================================== *)

Module TargetedRouteFacts.
Import Mongoose TransportEntryModel Routes Fixtures.

Lemma preSave_keeps_supplied_id docs doc :
  Js.truthy (id doc) = true -> preSave docs doc = doc.
Proof. intro H. unfold preSave. now rewrite H. Qed.

Lemma truthy_nonempty s : s <> EmptyString -> Js.truthy (Some s) = true.
Proof. destruct s; [intro H; now elim H | reflexivity]. Qed.

Lemma validated_casts b :
  validateTransportEntry b = [] -> castFailures b = [].
Proof.
  unfold validateTransportEntry, castFailures. intro H.
  do 3 (apply app_eq_nil in H; destruct H as [_ H]).
  apply app_eq_nil in H. destruct H as [Hd H].
  apply app_eq_nil in H. destruct H as [Ht _].
  destruct (body_date b); try discriminate;
    destruct (billTotal b); try discriminate; reflexivity.
Qed.

(** C10. A create request whose body carries a non-empty id is saved
    under exactly that id: the response is 201 only with that id on the
    new last document of the collection, and it is 201 whenever the body
    passes both validations and neither the id nor the generated ObjectId
    is in use. *)
Theorem client_id_bypasses_allocator env docs uid b s :
  body_id b = Some s ->
  s <> EmptyString ->
  (forall e docs', postEntry env docs uid b = (EntryCreated e, docs') ->
     id e = Some s /\ docs' = (docs ++ [e])%list /\ e = newDocument env uid b)
  /\ (validateTransportEntry b = [] ->
      schemaErrors true b = [] ->
      oidTaken docs (newObjectId env) = false ->
      idTaken docs s = false ->
      postEntry env docs uid b
      = (EntryCreated (newDocument env uid b),
         (docs ++ [newDocument env uid b])%list)).
Proof.
  intros Hid Hne.
  assert (Hpre : preSave docs (newDocument env uid b) = newDocument env uid b).
  { apply preSave_keeps_supplied_id. cbn [id newDocument]. rewrite Hid.
    now apply truthy_nonempty. }
  split.
  - intros e docs'. unfold postEntry, create.
    destruct (validateTransportEntry b); [|discriminate].
    destruct (castFailures b ++ schemaErrors true b)%list; [|discriminate].
    rewrite Hpre.
    destruct (oidTaken docs (_id (newDocument env uid b))
              || idTaken docs (idString (newDocument env uid b))); [discriminate|].
    intro H. injection H as <- <-. cbn [id newDocument]. auto.
  - intros Hv Hs Ho Hi. unfold postEntry, create.
    rewrite (validated_casts b Hv), Hv, Hs, Hpre.
    cbn [_id newDocument]. rewrite Ho.
    unfold idString. cbn [id newDocument]. rewrite Hid, Hi. reflexivity.
Qed.

Lemma client_id_bypasses_allocator_witness :
  postEntry (envAt 9) sampleDocs alice (withBodyId plainBody (Some "my-own-id") None)
  = (EntryCreated (newDocument (envAt 9) alice
                     (withBodyId plainBody (Some "my-own-id") None)),
     (sampleDocs ++ [newDocument (envAt 9) alice
                       (withBodyId plainBody (Some "my-own-id") None)])%list).
Proof.
  apply (client_id_bypasses_allocator (envAt 9) sampleDocs alice
           (withBodyId plainBody (Some "my-own-id") None) "my-own-id");
    [reflexivity | discriminate | reflexivity | reflexivity | reflexivity
    | reflexivity].
Defined.

Lemma findOwned_none_iff docs oid uid :
  findOwned docs oid uid = None
  <-> (forall e, In e docs -> _id e = oid -> userId e <> uid).
Proof.
  unfold findOwned. split.
  - intros H e Hin Ho Hu.
    apply (find_none _ _ H) in Hin. rewrite Ho, Hu, !Z.eqb_refl in Hin.
    discriminate.
  - intro H. destruct (find _ docs) as [e|] eqn:E; [|reflexivity].
    apply find_some in E. destruct E as [Hin Hb].
    apply andb_prop in Hb. destruct Hb as [Ho Hu].
    apply Z.eqb_eq in Ho, Hu. now elim (H e Hin Ho).
Qed.

(** C5, as the claim states it, fails: reading, updating or deleting an
    entry that exists and belongs to another user answers 404, not 403. *)
Lemma foreign_entry_is_not_403 :
  (exists e, In e sampleDocs /\ _id e = 2 /\ userId e = bob)
  /\ castObjectId (oidText 2) = Some 2
  /\ statusCode (getEntry sampleDocs alice (oidText 2)) = 404
  /\ statusCode (fst (putEntry sampleDocs alice (oidText 2) plainBody)) = 404
  /\ statusCode (fst (deleteEntry sampleDocs alice (oidText 2))) = 404
  /\ statusCode (getEntry sampleDocs alice (oidText 2)) <> 403.
Proof.
  split.
  - eexists. split; [right; left; reflexivity | split; reflexivity].
  - repeat split; try reflexivity. discriminate.
Qed.

(** C5, amended. A targeted operation on a well-formed id for which no
    entry has both that [_id] and the caller's [userId] answers 404 and
    leaves the collection as it was, whether the entry is missing or
    belongs to another user; no targeted operation answers 403. *)
Theorem foreign_or_missing_entry_not_found docs uid idParam oid :
  castObjectId idParam = Some oid ->
  (forall e, In e docs -> _id e = oid -> userId e <> uid) ->
  getEntry docs uid idParam = EntryNotFound
  /\ deleteEntry docs uid idParam = (EntryNotFound, docs)
  /\ (forall b, validateTransportEntry b = [] ->
        putEntry docs uid idParam b = (EntryNotFound, docs))
  /\ statusCode EntryNotFound = 404
  /\ (forall b, statusCode (getEntry docs uid idParam) <> 403
                /\ statusCode (fst (deleteEntry docs uid idParam)) <> 403
                /\ statusCode (fst (putEntry docs uid idParam b)) <> 403).
Proof.
  intros Hc Hno. apply findOwned_none_iff in Hno.
  unfold getEntry, deleteEntry, putEntry. rewrite Hc, Hno.
  repeat split; try discriminate.
  - intros b Hv. now rewrite Hv.
  - destruct (validateTransportEntry b); discriminate.
Qed.

Lemma foreign_or_missing_entry_not_found_witness :
  getEntry sampleDocs alice (oidText 2) = EntryNotFound
  /\ deleteEntry sampleDocs alice (oidText 2) = (EntryNotFound, sampleDocs).
Proof.
  destruct (foreign_or_missing_entry_not_found sampleDocs alice (oidText 2) 2)
    as (H1 & H2 & _).
  - reflexivity.
  - intros e Hin Ho Hu. simpl in Hin.
    destruct Hin as [<-|[<-|[<-|[]]]]; vm_compute in Ho, Hu; discriminate.
  - split; assumption.
Defined.

(** C6 on the code: an update whose body carries [id] and [userId]
    succeeds and replaces both on the stored entry. *)
Theorem update_rewrites_id_and_owner :
  let body := withBodyId plainBody (Some "TE-FY1999-00-0001") (Some (oidText 2)) in
  let before := sampleEntry 1 alice "TE-FY2024-25-0001" (Spec.april1 2024)
                  100 PENDING 10 in
  findOwned sampleDocs 1 alice = Some before
  /\ validateTransportEntry body = []
  /\ exists after rest,
       putEntry sampleDocs alice (oidText 1) body
       = (EntryUpdated (Some after), after :: rest)
       /\ statusCode (EntryUpdated (Some after)) = 200
       /\ _id after = _id before
       /\ id before = Some "TE-FY2024-25-0001"
       /\ id after = Some "TE-FY1999-00-0001"
       /\ userId before = alice
       /\ userId after = bob
       /\ findOwned (after :: rest) 1 alice = None.
Proof.
  cbv zeta. split; [reflexivity | split; [reflexivity |]].
  eexists. eexists. split; [vm_compute; reflexivity |].
  repeat split.
Qed.

End TargetedRouteFacts.

(* ================================================================== *)
(** * Properties of the list route                                       *)
(* ================================================================== *)

Module ListRouteFacts.
Import Mongoose TransportEntryModel Routes Fixtures.

(** ** Query parameters *)

Lemma digit_not_whitespace c : Js.isDigit c = true -> Js.isWhiteSpace c = false.
Proof.
  unfold Js.isDigit, Js.isWhiteSpace. cbv zeta. intro H.
  apply andb_prop in H. destruct H as [H1 H2].
  apply N.leb_le in H1.
  destruct (N.leb_spec (N_of_ascii c) 13); [lia|].
  rewrite andb_false_r. simpl.
  apply N.eqb_neq. lia.
Qed.

Lemma digit_not_x c :
  Js.isDigit c = true -> (Ascii.eqb c "x" || Ascii.eqb c "X") = false.
Proof.
  intro H.
  destruct (Ascii.eqb_spec c "x") as [->|_]; [discriminate H|].
  destruct (Ascii.eqb_spec c "X") as [->|_]; [discriminate H|].
  reflexivity.
Qed.

Lemma digits_no_hex_prefix d :
  Validators.matchesClassPlus Js.isDigit d = true ->
  Js.stripHexPrefix d = (10, d).
Proof.
  destruct d as [|c [|x rest]]; simpl; try reflexivity; try discriminate.
  intro H. apply andb_prop in H. destruct H as [_ H].
  apply andb_prop in H. destruct H as [Hx _].
  now rewrite (digit_not_x x Hx), andb_false_r.
Qed.

Lemma parseDigits_started radix rest a :
  exists v, Js.parseDigits radix rest (Some a) = Some v.
Proof.
  revert a. induction rest as [|x rest IH]; intro a; simpl.
  - eauto.
  - destruct (Js.digitValue radix x); [apply IH | eauto].
Qed.

Lemma digits_parse d :
  Validators.matchesClassPlus Js.isDigit d = true ->
  exists v, Js.parseDigits 10 d None = Some v.
Proof.
  destruct d as [|c rest]; [discriminate|]. simpl. intro H.
  apply andb_prop in H. destruct H as [Hc _].
  unfold Js.digitValue. rewrite Hc.
  assert (Hlt : (Z.of_N (N_of_ascii c) - 48 <? 10) = true).
  { unfold Js.isDigit in Hc. cbv zeta in Hc. apply andb_prop in Hc.
    destruct Hc as [_ Hc]. apply N.leb_le in Hc. apply Z.ltb_lt. lia. }
  cbv zeta. rewrite Hlt. apply parseDigits_started.
Qed.

Lemma trimStart_first c rest :
  Js.isWhiteSpace c = false -> Js.trimStart (String c rest) = String c rest.
Proof. intro H. simpl. now rewrite H. Qed.

(** On a string accepted by [isInt]'s pattern, [parseInt] yields the
    number that [isInt] compares with its bounds. *)
Lemma parseInt_intValue s :
  isIntString s = true -> Js.parseInt s = intValue s.
Proof.
  unfold isIntString, Js.parseInt, intValue.
  destruct s as [|c rest]; [discriminate|].
  assert (Hws : Js.isWhiteSpace c = false ->
                Js.trimStart (String c rest) = String c rest)
    by apply trimStart_first.
  unfold Js.stripSign at 1 3.
  destruct (Ascii.eqb_spec c "-") as [->|Hm].
  - rewrite Hws by reflexivity. cbn [Js.stripSign Ascii.eqb Bool.eqb snd].
    intro H. rewrite (digits_no_hex_prefix _ H).
    destruct (digits_parse _ H) as [v ->]. reflexivity.
  - destruct (Ascii.eqb_spec c "+") as [->|Hp].
    + rewrite Hws by reflexivity. cbn [Js.stripSign Ascii.eqb Bool.eqb snd].
      intro H. rewrite (digits_no_hex_prefix _ H).
      destruct (digits_parse _ H) as [v ->]. reflexivity.
    + cbn [snd]. intro H.
      assert (Hc : Js.isDigit c = true).
      { simpl in H. now apply andb_prop in H. }
      rewrite Hws by now apply digit_not_whitespace.
      unfold Js.stripSign.
      destruct (Ascii.eqb_spec c "-"); [contradiction|].
      destruct (Ascii.eqb_spec c "+"); [contradiction|].
      rewrite (digits_no_hex_prefix _ H).
      destruct (digits_parse _ H) as [v ->]. reflexivity.
Qed.

Lemma isInt_parseInt lo hi s :
  isInt lo hi s = true ->
  exists v, Js.parseInt s = Some v
            /\ (forall m, lo = Some m -> m <= v)
            /\ (forall m, hi = Some m -> v <= m).
Proof.
  unfold isInt. intro H. apply andb_prop in H. destruct H as [Hs Hb].
  rewrite (parseInt_intValue _ Hs).
  destruct (intValue s) as [v|]; [|discriminate].
  exists v. split; [reflexivity|].
  apply andb_prop in Hb. destruct Hb as [Hlo Hhi].
  split; intros m ->; [now apply Z.leb_le | now apply Z.leb_le].
Qed.

Lemma parseIntOr_positive s v dflt :
  Js.parseInt s = Some v -> 1 <= v -> Js.parseIntOr (Some s) dflt = v.
Proof.
  intros H Hv. unfold Js.parseIntOr. rewrite H.
  destruct v; [lia | reflexivity | reflexivity].
Qed.

Lemma app_nil_both {A} (l1 l2 : list A) : (l1 ++ l2 = [] -> l1 = [] /\ l2 = [])%list.
Proof. destruct l1; [auto | discriminate]. Qed.

Lemma validated_page q :
  validateQuery q = [] -> 1 <= Js.parseIntOr (query_page q) 1.
Proof.
  unfold validateQuery. intro H. apply app_nil_both in H. destruct H as [H _].
  destruct (query_page q) as [s|]; [|simpl; lia].
  destruct (isInt (Some 1) None s) eqn:E; [|discriminate].
  destruct (isInt_parseInt _ _ _ E) as (v & Hp & Hlo & _).
  specialize (Hlo 1 eq_refl).
  rewrite (parseIntOr_positive s v 1 Hp Hlo). exact Hlo.
Qed.

Lemma validated_limit q :
  validateQuery q = [] -> 1 <= Js.parseIntOr (query_limit q) 10 <= 5000.
Proof.
  unfold validateQuery. intro H. apply app_nil_both in H. destruct H as [_ H].
  apply app_nil_both in H. destruct H as [H _].
  destruct (query_limit q) as [s|]; [|simpl; lia].
  destruct (isInt (Some 1) (Some 5000) s) eqn:E; [|discriminate].
  destruct (isInt_parseInt _ _ _ E) as (v & Hp & Hlo & Hhi).
  specialize (Hlo 1 eq_refl). specialize (Hhi 5000 eq_refl).
  rewrite (parseIntOr_positive s v 10 Hp Hlo). lia.
Qed.

(** ** Pages *)

Lemma ceilDiv_isCeiling total limit :
  0 <= total -> 1 <= limit -> Spec.isCeiling total limit (Js.ceilDiv total limit).
Proof.
  intros Ht Hl. unfold Spec.isCeiling, Js.ceilDiv.
  pose proof (Z.div_mod (total + limit - 1) limit ltac:(lia)) as Hd.
  pose proof (Z.mod_pos_bound (total + limit - 1) limit ltac:(lia)) as Hm.
  nia.
Qed.

Lemma ceilDiv_zero_iff total limit :
  0 <= total -> 1 <= limit -> (Js.ceilDiv total limit = 0 <-> total = 0).
Proof.
  intros Ht Hl. pose proof (ceilDiv_isCeiling total limit Ht Hl) as Hc.
  unfold Spec.isCeiling in Hc. split; intro H.
  - rewrite H in Hc. lia.
  - subst total. nia.
Qed.

(** ** Sorting and slicing *)

Lemma insertByCreatedAt_length e l :
  List.length (insertByCreatedAt e l) = S (List.length l).
Proof.
  induction l as [|x l IH]; simpl; [reflexivity|].
  destruct (createdAt x <? createdAt e); simpl; [reflexivity | now rewrite IH].
Qed.

Lemma insertByCreatedAt_In e x l :
  In x (insertByCreatedAt e l) <-> x = e \/ In x l.
Proof.
  induction l as [|y l IH]; simpl.
  - intuition.
  - destruct (createdAt y <? createdAt e); simpl; [intuition|].
    rewrite IH. intuition.
Qed.

Lemma sort_fold_length l acc :
  List.length (fold_left (fun a e => insertByCreatedAt e a) l acc)
  = (List.length l + List.length acc)%nat.
Proof.
  revert acc. induction l as [|e l IH]; intro acc; simpl; [reflexivity|].
  rewrite IH, insertByCreatedAt_length. lia.
Qed.

Lemma sort_fold_In x l acc :
  In x (fold_left (fun a e => insertByCreatedAt e a) l acc) <-> In x l \/ In x acc.
Proof.
  revert acc. induction l as [|e l IH]; intro acc; simpl; [intuition|].
  rewrite IH, insertByCreatedAt_In. intuition.
Qed.

Lemma sortByCreatedAtDesc_length l :
  List.length (sortByCreatedAtDesc l) = List.length l.
Proof. unfold sortByCreatedAtDesc. rewrite sort_fold_length. simpl. lia. Qed.

Lemma sortByCreatedAtDesc_In x l : In x (sortByCreatedAtDesc l) <-> In x l.
Proof. unfold sortByCreatedAtDesc. rewrite sort_fold_In. simpl. intuition. Qed.

Lemma In_firstn {A} (x : A) n l : In x (firstn n l) -> In x l.
Proof.
  revert l. induction n as [|n IH]; intros [|y l]; simpl; try contradiction.
  intros [->|H]; [now left | right; now apply IH].
Qed.

Lemma In_skipn {A} (x : A) n l : In x (skipn n l) -> In x l.
Proof.
  revert l. induction n as [|n IH]; intros [|y l]; simpl; auto.
Qed.

Lemma skipn_beyond {A} n (l : list A) : (List.length l <= n)%nat -> skipn n l = [].
Proof.
  revert l. induction n as [|n IH]; intros [|y l]; simpl; intro H;
    try reflexivity; try lia.
  apply IH. lia.
Qed.

Section ListRoute.

Variable regexI : string -> option (string -> bool).

Lemma buildQuery_owner uid q query :
  buildQuery regexI uid q = Some query ->
  forall e, query e = true -> userId e = uid.
Proof.
  unfold buildQuery.
  destruct (optionalRegex regexI (query_search q) _); [|discriminate].
  destruct (optionalRegex regexI (query_from q) _); [|discriminate].
  destruct (optionalRegex regexI (query_to q) _); [|discriminate].
  intro H. injection H as <-. intros e He.
  repeat (apply andb_prop in He; destruct He as [He _]).
  now apply Z.eqb_eq.
Qed.

Lemma getEntries_ok docs uid q query :
  validateQuery q = [] ->
  buildQuery regexI uid q = Some query ->
  getEntries regexI docs uid q
  = let page := Js.parseIntOr (query_page q) 1 in
    let limit := Js.parseIntOr (query_limit q) 10 in
    let total := countDocuments query docs in
    ListOk
      (firstn (Z.to_nat limit)
         (skipn (Z.to_nat ((page - 1) * limit))
            (sortByCreatedAtDesc (filter query docs))))
      {| pg_total := total; pg_page := page;
         pg_pages := Js.ceilDiv total limit; pg_limit := limit;
         hasNext := page <? Js.ceilDiv total limit;
         hasPrev := 1 <? page |}.
Proof. intros Hv Hq. unfold getEntries. now rewrite Hv, Hq. Qed.

Lemma getEntries_inv docs uid q entries pg :
  getEntries regexI docs uid q = ListOk entries pg ->
  validateQuery q = [] /\ exists query, buildQuery regexI uid q = Some query.
Proof.
  unfold getEntries.
  destruct (validateQuery q); [|discriminate].
  destruct (buildQuery regexI uid q) as [query|]; [|discriminate].
  intros _. split; [reflexivity | now exists query].
Qed.

(** C7. A list request that passes validation and whose conditions the
    store accepts succeeds with the envelope: [pages] is the ceiling of
    [total / limit], it is 0 exactly when [total] is 0, [hasNext] is
    [page < pages], [hasPrev] is [page > 1], and a page beyond [pages] is
    empty. *)
Theorem pagination_envelope docs uid q query :
  validateQuery q = [] ->
  buildQuery regexI uid q = Some query ->
  exists entries pg,
    getEntries regexI docs uid q = ListOk entries pg
    /\ statusCode (ListOk entries pg) = 200
    /\ pg_total pg = countDocuments query docs
    /\ pg_page pg = Js.parseIntOr (query_page q) 1
    /\ pg_limit pg = Js.parseIntOr (query_limit q) 10
    /\ 1 <= pg_page pg
    /\ 1 <= pg_limit pg <= 5000
    /\ Spec.isCeiling (pg_total pg) (pg_limit pg) (pg_pages pg)
    /\ (pg_pages pg = 0 <-> pg_total pg = 0)
    /\ hasNext pg = (pg_page pg <? pg_pages pg)
    /\ hasPrev pg = (1 <? pg_page pg)
    /\ (List.length entries <= Z.to_nat (pg_limit pg))%nat
    /\ (pg_pages pg < pg_page pg -> entries = []).
Proof.
  intros Hv Hq. eexists. eexists.
  split; [exact (getEntries_ok docs uid q query Hv Hq)|].
  cbv zeta. cbn [pg_total pg_page pg_pages pg_limit hasNext hasPrev statusCode].
  pose proof (validated_page q Hv) as Hp.
  pose proof (validated_limit q Hv) as Hl.
  set (page := Js.parseIntOr (query_page q) 1) in *.
  set (limit := Js.parseIntOr (query_limit q) 10) in *.
  assert (Ht : 0 <= countDocuments query docs) by (unfold countDocuments; lia).
  pose proof (ceilDiv_isCeiling _ limit Ht ltac:(lia)) as Hc.
  repeat split; try assumption; try lia; try (apply Hc).
  - now apply ceilDiv_zero_iff; try lia.
  - intros ->. unfold Js.ceilDiv. rewrite Z.add_0_l.
    apply Z.div_small. lia.
  - rewrite length_firstn. lia.
  - intro Hbeyond. rewrite skipn_beyond; [now destruct (Z.to_nat limit)|].
    rewrite sortByCreatedAtDesc_length.
    unfold Spec.isCeiling, countDocuments in *.
    set (n := List.length (filter query docs)) in *.
    nia.
Qed.

(** C4. Every entry that the list route returns is a stored entry of
    the caller, and the reported total counts entries of the caller only,
    whatever the search, status, from, to, page and limit parameters. *)
Theorem list_returns_own_entries docs uid q entries pg :
  getEntries regexI docs uid q = ListOk entries pg ->
  (forall e, In e entries -> In e docs /\ userId e = uid)
  /\ (exists query,
        buildQuery regexI uid q = Some query
        /\ pg_total pg = countDocuments query docs
        /\ forall e, query e = true -> userId e = uid)
  /\ pg_total pg <= countDocuments (fun e => userId e =? uid) docs.
Proof.
  intro H. destruct (getEntries_inv _ _ _ _ _ H) as (Hv & query & Hq).
  rewrite (getEntries_ok docs uid q query Hv Hq) in H. cbv zeta in H.
  injection H as <- <-.
  pose proof (buildQuery_owner uid q query Hq) as Hown.
  split; [|split].
  - intros e He. apply In_firstn, In_skipn in He.
    apply sortByCreatedAtDesc_In, filter_In in He. destruct He as [Hin Hqe].
    split; [exact Hin | now apply Hown].
  - exists query. repeat split; [exact Hq | exact Hown].
  - cbn [pg_total]. unfold countDocuments. apply inj_le.
    clear - Hown. induction docs as [|e l IH]; simpl; [lia|].
    destruct (query e) eqn:E.
    + rewrite (Hown e E), Z.eqb_refl. simpl. lia.
    + destruct (userId e =? uid); simpl; lia.
Qed.

End ListRoute.

Lemma pagination_envelope_witness :
  exists entries pg,
    getEntries literalRegexI twentyFive alice (pageQuery "3" "10")
    = ListOk entries pg
    /\ pg_total pg = 25 /\ pg_pages pg = 3
    /\ hasNext pg = false /\ hasPrev pg = true
    /\ List.length entries = 5%nat.
Proof.
  destruct (pagination_envelope literalRegexI twentyFive alice
              (pageQuery "3" "10") _ eq_refl eq_refl)
    as (entries & pg & H & _).
  exists entries, pg. split; [exact H|].
  vm_compute in H. injection H as <- <-. repeat split.
Defined.

Lemma list_returns_own_entries_witness :
  exists entries pg,
    getEntries literalRegexI sampleDocs alice (searchQuery "MUMBAI")
    = ListOk entries pg
    /\ List.length entries = 2%nat
    /\ Forall (fun e => userId e = alice) entries.
Proof.
  assert (H : exists entries pg,
             getEntries literalRegexI sampleDocs alice (searchQuery "MUMBAI")
             = ListOk entries pg /\ List.length entries = 2%nat).
  { eexists. eexists. split; [vm_compute; reflexivity | reflexivity]. }
  destruct H as (entries & pg & H & Hlen).
  exists entries, pg. split; [exact H | split; [exact Hlen|]].
  apply Forall_forall. intros e He.
  exact (proj2 (proj1 (list_returns_own_entries literalRegexI sampleDocs alice
                         (searchQuery "MUMBAI") entries pg H) e He)).
Defined.

End ListRouteFacts.

(* ================================================================== *)
(** * Properties of the statistics route                                 *)
(* ================================================================== *)

Module StatsFacts.
Import Mongoose TransportEntryModel Routes Fixtures Spec.

Lemma sameStatus_eq a b : sameStatus a b = true <-> a = b.
Proof.
  destruct a as [[]|], b as [[]|]; simpl; split; intro H;
    try reflexivity; try discriminate.
Qed.

Lemma sumOfCounts_bump k g : sumOfCounts (bump k g) = sumOfCounts g + 1.
Proof.
  induction g as [|[k' c] g IH]; simpl; [reflexivity|].
  destruct (sameStatus k k'); simpl; [lia | rewrite IH; lia].
Qed.

Lemma countIn_bump k k0 g :
  countIn k (bump k0 g) = countIn k g + (if sameStatus k0 k then 1 else 0).
Proof.
  induction g as [|[k' c] g IH]; simpl.
  - destruct (sameStatus k k0) eqn:E, (sameStatus k0 k) eqn:E'; try lia.
    + apply sameStatus_eq in E. subst.
      now rewrite (proj2 (sameStatus_eq k0 k0) eq_refl) in E'.
    + apply sameStatus_eq in E'. subst.
      now rewrite (proj2 (sameStatus_eq k k) eq_refl) in E.
  - destruct (sameStatus k0 k') eqn:E0; simpl.
    + apply sameStatus_eq in E0. subst k'.
      destruct (sameStatus k k0) eqn:E, (sameStatus k0 k) eqn:E'; try lia.
      * apply sameStatus_eq in E. subst.
        now rewrite (proj2 (sameStatus_eq k0 k0) eq_refl) in E'.
      * apply sameStatus_eq in E'. subst.
        now rewrite (proj2 (sameStatus_eq k k) eq_refl) in E.
    + destruct (sameStatus k k') eqn:E; [|exact IH].
      apply sameStatus_eq in E. subst k'.
      destruct (sameStatus k0 k); [discriminate | lia].
Qed.

Lemma bump_keys k g :
  NoDup (map fst g) -> NoDup (map fst (bump k g))
  /\ (forall k', In k' (map fst (bump k g)) -> k' = k \/ In k' (map fst g)).
Proof.
  induction g as [|[k' c] g IH]; simpl; intro Hnd.
  - split; [constructor; [intros [] | constructor] | intuition].
  - inversion Hnd as [|? ? Hnot Hnd']; subst.
    destruct (sameStatus k k') eqn:E; simpl.
    + split; [now constructor | intuition].
    + destruct (IH Hnd') as [IH1 IH2]. split.
      * constructor; [|exact IH1]. intro Hin.
        destruct (IH2 _ Hin) as [->|Hin']; [|contradiction].
        now rewrite (proj2 (sameStatus_eq k k) eq_refl) in E.
      * intros k'' [->|Hin]; [right; now left|].
        destruct (IH2 _ Hin); [now left | right; now right].
Qed.

Lemma bump_positive k g :
  Forall (fun p => 1 <= snd p) g -> Forall (fun p => 1 <= snd p) (bump k g).
Proof.
  induction g as [|[k' c] g IH]; simpl; intro H.
  - constructor; [simpl; lia | constructor].
  - inversion H; subst. simpl in *.
    destruct (sameStatus k k'); constructor; simpl; auto; lia.
Qed.


Lemma groups_fold docs : forall g,
  NoDup (map fst g) ->
  Forall (fun p => 1 <= snd p) g ->
  NoDup (map fst (groupsAfter docs g))
  /\ Forall (fun p => 1 <= snd p) (groupsAfter docs g)
  /\ sumOfCounts (groupsAfter docs g) = sumOfCounts g + Z.of_nat (List.length docs)
  /\ forall k, countIn k (groupsAfter docs g) = countIn k g + countWithStatus k docs.
Proof.
  unfold groupsAfter, countWithStatus.
  induction docs as [|e docs IH]; intros g Hnd Hpos.
  - simpl. repeat split; auto; intros; lia.
  - cbn [fold_left].
    destruct (IH (bump (status (transportBillData e)) g)
                (proj1 (bump_keys _ g Hnd)) (bump_positive _ g Hpos))
      as (H1 & H2 & H3 & H4).
    repeat split; auto.
    + rewrite H3, sumOfCounts_bump. cbn [List.length]. lia.
    + intro k. rewrite H4, countIn_bump. cbn [map count_occ].
      destruct (statusEq (status (transportBillData e)) k) as [Heq|Hne].
      * rewrite (proj2 (sameStatus_eq _ _) Heq). lia.
      * destruct (sameStatus (status (transportBillData e)) k) eqn:E;
          [apply sameStatus_eq in E; contradiction | lia].
Qed.






(** The statistics of the sample collection for one user; the amounts
    of the other user are left out. *)
Lemma stats_of_sample :
  getStats (envAt 40) sampleDocs alice
  = StatsOk {| totalEntries := 2;
               statusBreakdown := [(Some PENDING, 2)];
               totalAmount := 140;
               recentEntries := 2 |}
  /\ getStats (envAt 40)
       [ sampleEntry 1 alice "TE-FY2024-25-0001" (Spec.april1 2024) 0.5 PENDING 10;
         sampleEntry 2 alice "TE-FY2024-25-0002" (Spec.april1 2024) 0.25 CANCELLED 20 ]
       alice
     = StatsOk {| totalEntries := 2;
                  statusBreakdown := [(Some PENDING, 1); (Some CANCELLED, 1)];
                  totalAmount := 0.75;
                  recentEntries := 2 |}.
Proof. split; reflexivity. Qed.


End StatsFacts.

(* ================================================================== *)
(** * Properties of the identifier allocator                             *)
(* ================================================================== *)

Module AllocatorFacts.
Import Mongoose TransportEntryModel Routes Fixtures Spec.

(** ** Strings: order, prefixes and splitting *)

Lemma ascii_compare_refl c : Ascii.compare c c = Eq.
Proof. unfold Ascii.compare. apply N.compare_refl. Qed.

Lemma ascii_compare_lt_trans a b c :
  Ascii.compare a b = Lt -> Ascii.compare b c = Lt -> Ascii.compare a c = Lt.
Proof.
  unfold Ascii.compare. rewrite !N.compare_lt_iff. lia.
Qed.

Lemma compare_lt_trans : forall a b c,
  String.compare a b = Lt -> String.compare b c = Lt -> String.compare a c = Lt.
Proof.
  induction a as [|x a IH]; intros [|y b] [|z c]; simpl; try discriminate; auto.
  destruct (Ascii.compare x y) eqn:Exy; try discriminate.
  - apply Ascii.compare_eq_iff in Exy. subst y.
    destruct (Ascii.compare x z); try discriminate; auto.
    apply IH.
  - intros _. destruct (Ascii.compare y z) eqn:Eyz; try discriminate.
    + apply Ascii.compare_eq_iff in Eyz. subst z. now rewrite Exy.
    + intros _. now rewrite (ascii_compare_lt_trans x y z Exy Eyz).
Qed.

Lemma compare_refl s : String.compare s s = Eq.
Proof. induction s as [|c s IH]; simpl; [reflexivity|]. now rewrite ascii_compare_refl. Qed.

Lemma ltb_irrefl s : String.ltb s s = false.
Proof. unfold String.ltb. now rewrite compare_refl. Qed.

Lemma ltb_trans a b c :
  String.ltb a b = true -> String.ltb b c = true -> String.ltb a c = true.
Proof.
  unfold String.ltb.
  destruct (String.compare a b) eqn:E1; try discriminate.
  destruct (String.compare b c) eqn:E2; try discriminate.
  now rewrite (compare_lt_trans a b c E1 E2).
Qed.

(** [a] not below [b] and [a] below [c]: then [b] is below [c]. *)
Lemma ltb_from_not_below a b c :
  String.ltb a b = false -> String.ltb a c = true -> String.ltb b c = true.
Proof.
  unfold String.ltb. intros Hab Hac.
  destruct (String.compare a b) eqn:E; try discriminate.
  - apply String.compare_eq_iff in E. now subst.
  - assert (Hba : String.compare b a = Lt).
    { rewrite String.compare_antisym, E. reflexivity. }
    destruct (String.compare a c) eqn:E2; try discriminate.
    now rewrite (compare_lt_trans b a c Hba E2).
Qed.

Lemma compare_app p a b :
  String.compare (p ++ a) (p ++ b) = String.compare a b.
Proof.
  induction p as [|c p IH]; simpl; [reflexivity|].
  now rewrite ascii_compare_refl.
Qed.

Lemma ltb_app p a b : String.ltb (p ++ a) (p ++ b) = String.ltb a b.
Proof. unfold String.ltb. now rewrite compare_app. Qed.

Lemma prefix_app p s : String.prefix p (p ++ s) = true.
Proof.
  induction p as [|c p IH]; simpl; [now destruct s|].
  destruct (ascii_dec c c); [exact IH | contradiction].
Qed.

Lemma append_assoc (a b c : string) : (a ++ b) ++ c = a ++ (b ++ c).
Proof. induction a as [|x a IH]; simpl; [reflexivity | now rewrite IH]. Qed.

Lemma append_inj_l p a b : p ++ a = p ++ b -> a = b.
Proof.
  induction p as [|c p IH]; simpl; [auto|].
  intro H. injection H as H. auto.
Qed.

Lemma split_nonempty sep s : Js.split sep s <> [].
Proof.
  induction s as [|c s IH]; simpl; [discriminate|].
  destruct (Ascii.eqb c sep); [discriminate|].
  destruct (Js.split sep s); discriminate.
Qed.

Lemma lastPart_cons p ps : ps <> [] -> Js.lastPart (p :: ps) = Js.lastPart ps.
Proof. destruct ps; [intro H; now elim H | reflexivity]. Qed.

Lemma lastPart_split_after sep a b :
  Js.lastPart (Js.split sep (a ++ String sep b)) = Js.lastPart (Js.split sep b).
Proof.
  induction a as [|c a IH]; simpl.
  - rewrite Ascii.eqb_refl. apply lastPart_cons, split_nonempty.
  - destruct (Ascii.eqb c sep).
    + rewrite lastPart_cons by apply split_nonempty. exact IH.
    + destruct (Js.split sep (a ++ String sep b)) as [|p ps] eqn:E.
      * now elim (split_nonempty sep (a ++ String sep b)).
      * rewrite <- IH. destruct ps as [|q ps].
        -- exfalso. clear IH.
           assert (Hlen : (2 <= List.length (Js.split sep (a ++ String sep b)))%nat).
           { clear E. induction a as [|x a IHa]; simpl.
             - rewrite Ascii.eqb_refl. simpl.
               pose proof (split_nonempty sep b).
               destruct (Js.split sep b); [contradiction | simpl; lia].
             - destruct (Ascii.eqb x sep); simpl; [lia|].
               destruct (Js.split sep (a ++ String sep b)); simpl in *; lia. }
           rewrite E in Hlen. simpl in Hlen. lia.
        -- reflexivity.
Qed.

Lemma split_without_separator s :
  noHyphen s = true -> Js.split "-" s = [s].
Proof.
  unfold noHyphen. induction s as [|c s IH]; simpl; [reflexivity|].
  intro H. apply andb_prop in H. destruct H as [Hc Hs].
  apply negb_true_iff in Hc. rewrite Hc, (IH Hs). reflexivity.
Qed.

(** ** The suffixes of the sequence values up to 10000 *)

Lemma In_firstSequences n count :
  0 <= n < count -> In n (firstSequences count).
Proof.
  intro H. unfold firstSequences.
  assert (G : forall len start, start <= n < start + Z.of_nat len ->
                                In n (sequencesFrom start len)).
  { induction len as [|len IH]; intros start Hs; [lia|]. simpl.
    destruct (Z.eq_dec start n) as [->|Hne]; [now left | right].
    apply IH. lia. }
  apply G. lia.
Qed.

Lemma suffixes_increase_check :
  forallb suffixBelowNext (firstSequences 9999) = true.
Proof. vm_compute. reflexivity. Qed.

Lemma suffixes_read_back_check :
  forallb suffixReadsBack (firstSequences 10001) = true.
Proof. vm_compute. reflexivity. Qed.

Lemma suffixes_differ_check :
  forallb (suffixDiffersFrom 10000) (firstSequences 10000) = true.
Proof. vm_compute. reflexivity. Qed.

Lemma suffix_below_next n :
  0 <= n < 9999 ->
  String.ltb (sequenceSuffix n) (sequenceSuffix (n + 1)) = true.
Proof.
  intro H.
  exact (proj1 (forallb_forall _ _) suffixes_increase_check n
           (In_firstSequences n 9999 ltac:(lia))).
Qed.

Lemma suffix_monotone n m :
  0 <= n -> n < m -> m <= 9999 ->
  String.ltb (sequenceSuffix n) (sequenceSuffix m) = true.
Proof.
  intros Hn Hlt Hm.
  replace m with (n + 1 + Z.of_nat (Z.to_nat (m - n - 1))) in * by lia.
  induction (Z.to_nat (m - n - 1)) as [|k IH].
  - rewrite Z.add_0_r. apply suffix_below_next. lia.
  - apply ltb_trans with (sequenceSuffix (n + 1 + Z.of_nat k)).
    + apply IH; lia.
    + replace (n + 1 + Z.of_nat (S k)) with (n + 1 + Z.of_nat k + 1) by lia.
      apply suffix_below_next. lia.
Qed.

Lemma suffix_reads_back n :
  0 <= n <= 10000 ->
  noHyphen (sequenceSuffix n) = true
  /\ Js.parseInt (sequenceSuffix n) = Some n.
Proof.
  intro H.
  pose proof (proj1 (forallb_forall _ _) suffixes_read_back_check n
                (In_firstSequences n 10001 ltac:(lia))) as Hc.
  unfold suffixReadsBack in Hc. apply andb_prop in Hc. destruct Hc as [Hh Hp].
  split; [exact Hh|].
  destruct (Js.parseInt (sequenceSuffix n)) as [v|]; [|discriminate].
  apply Z.eqb_eq in Hp. now subst.
Qed.

(** ** Identifiers *)

Lemma formatId_suffix fy n : formatId fy n = idPrefix fy ++ sequenceSuffix n.
Proof. reflexivity. Qed.

Lemma idPrefix_shape fy : idPrefix fy = ("TE-FY" ++ fy) ++ "-".
Proof. unfold idPrefix. now rewrite append_assoc. Qed.

Lemma matchesYear_formatId fy e n :
  id e = Some (formatId fy n) -> matchesYear fy e = true.
Proof.
  intro H. unfold matchesYear. rewrite H, formatId_suffix. apply prefix_app.
Qed.

Lemma sequence_of_formatId fy n :
  0 <= n <= 10000 ->
  Js.parseInt (Js.lastPart (Js.split "-" (formatId fy n))) = Some n.
Proof.
  intro H. destruct (suffix_reads_back n H) as [Hh Hp].
  rewrite formatId_suffix, idPrefix_shape, append_assoc.
  change ("-" ++ sequenceSuffix n) with (String "-" (sequenceSuffix n)).
  rewrite lastPart_split_after, (split_without_separator _ Hh).
  exact Hp.
Qed.

Lemma nextSequence_formatId fy e n :
  0 <= n <= 10000 ->
  id e = Some (formatId fy n) ->
  nextSequence (Some e) = n + 1.
Proof.
  intros Hn He. unfold nextSequence, idString. rewrite He.
  now rewrite (sequence_of_formatId fy n Hn).
Qed.

Lemma formatId_order fy n m :
  0 <= n -> n < m -> m <= 9999 ->
  String.ltb (formatId fy n) (formatId fy m) = true.
Proof.
  intros. rewrite !formatId_suffix, ltb_app. now apply suffix_monotone.
Qed.

(** ** The greatest identifier *)

Lemma pickGreater_fold docs : forall b,
  exists m,
    fold_left pickGreater docs (Some b) = Some m
    /\ In m (b :: docs)
    /\ forall x, In x (b :: docs) -> String.ltb (idString m) (idString x) = false.
Proof.
  induction docs as [|e docs IH]; intro b.
  - exists b. simpl. split; [reflexivity | split; [now left|]].
    intros x [<-|[]]. apply ltb_irrefl.
  - cbn [fold_left pickGreater].
    destruct (String.ltb (idString b) (idString e)) eqn:E.
    + destruct (IH e) as (m & Hm & Hin & Hmax).
      exists m. split; [exact Hm | split; [now right|]].
      intros x [<-|Hx]; [|now apply Hmax].
      destruct (String.ltb (idString m) (idString b)) eqn:E'; [|reflexivity].
      rewrite <- (Hmax e (or_introl eq_refl)).
      symmetry. now apply ltb_trans with (idString b).
    + destruct (IH b) as (m & Hm & Hin & Hmax).
      exists m. split; [exact Hm | split].
      * destruct Hin as [<-|Hin]; [now left | right; now right].
      * intros x [<-|[<-|Hx]].
        -- apply Hmax. now left.
        -- destruct (String.ltb (idString m) (idString e)) eqn:E'; [|reflexivity].
           rewrite <- E. symmetry.
           apply ltb_from_not_below with (idString m); [|exact E'].
           apply Hmax. now left.
        -- apply Hmax. now right.
Qed.

Lemma filter_all {A} (p : A -> bool) l :
  (forall x, In x l -> p x = true) -> filter p l = l.
Proof.
  induction l as [|x l IH]; simpl; intro H; [reflexivity|].
  rewrite (H x (or_introl eq_refl)), IH; [reflexivity|].
  intros y Hy. apply H. now right.
Qed.

(** Among entries whose identifiers are those of one year with
    sequences up to 9999, the lookup returns the greatest sequence. *)
Lemma findLastEntry_greatest fy docs :
  docs <> [] ->
  (forall e, In e docs -> exists n, 0 <= n <= 9999 /\ id e = Some (formatId fy n)) ->
  exists e m,
    findLastEntry fy docs = Some e
    /\ In e docs
    /\ 0 <= m <= 9999
    /\ id e = Some (formatId fy m)
    /\ (forall e' n, In e' docs -> 0 <= n <= 9999 ->
          id e' = Some (formatId fy n) -> n <= m)
    /\ nextSequence (findLastEntry fy docs) = m + 1.
Proof.
  intros Hne Hall. unfold findLastEntry.
  rewrite filter_all
    by (intros x Hx; destruct (Hall x Hx) as (n & _ & Hn);
        now apply matchesYear_formatId with n).
  destruct docs as [|b docs]; [now elim Hne|].
  cbn [fold_left pickGreater].
  destruct (pickGreater_fold docs b) as (e & He & Hin & Hmax).
  destruct (Hall e Hin) as (m & Hm & Hid).
  exists e, m. rewrite He.
  repeat split; try assumption; try lia.
  - intros e' n Hin' Hn Hid'.
    destruct (Z.le_gt_cases n m) as [|Hgt]; [assumption|].
    pose proof (Hmax e' Hin') as Hnot.
    unfold idString in Hnot. rewrite Hid, Hid' in Hnot.
    rewrite (formatId_order fy m n) in Hnot by lia. discriminate.
  - apply nextSequence_formatId with fy; [lia | exact Hid].
Qed.

(** C3. For every non-empty collection of identifiers of one financial
    year whose sequences are at most 9999, the entry with the greatest
    identifier in string order carries the greatest sequence, and the
    allocator continues from it; with the sequences 9999 and 10000 string
    order and numeric order disagree. *)
Theorem lexicographic_lookup_up_to_9999 :
  (forall fy docs,
     docs <> [] ->
     (forall e, In e docs ->
        exists n, 0 <= n <= 9999 /\ id e = Some (formatId fy n)) ->
     exists e m,
       findLastEntry fy docs = Some e
       /\ In e docs
       /\ id e = Some (formatId fy m)
       /\ (forall e' n, In e' docs -> 0 <= n <= 9999 ->
             id e' = Some (formatId fy n) -> n <= m)
       /\ nextSequence (findLastEntry fy docs) = m + 1)
  /\ (let older := sampleEntry 1 alice (formatId "2024-25" 9999)
                     (april1 2024) 0 PENDING 1 in
      let newer := sampleEntry 2 alice (formatId "2024-25" 10000)
                     (april1 2024) 0 PENDING 2 in
      String.ltb (formatId "2024-25" 10000) (formatId "2024-25" 9999) = true
      /\ findLastEntry "2024-25" [older; newer] = Some older
      /\ nextSequence (findLastEntry "2024-25" [older; newer]) = 10000).
Proof.
  split.
  - intros fy docs Hne Hall.
    destruct (findLastEntry_greatest fy docs Hne Hall)
      as (e & m & H1 & H2 & _ & H3 & H4 & H5).
    exists e, m. auto.
  - cbv zeta. repeat split; vm_compute; reflexivity.
Qed.

Lemma lexicographic_lookup_up_to_9999_witness :
  exists e m,
    findLastEntry "2024-25" sampleDocs = Some e
    /\ id e = Some (formatId "2024-25" m)
    /\ nextSequence (findLastEntry "2024-25" sampleDocs) = m + 1.
Proof.
  destruct (proj1 lexicographic_lookup_up_to_9999 "2024-25" sampleDocs)
    as (e & m & H1 & _ & H3 & _ & H5).
  - discriminate.
  - intros e He. simpl in He.
    destruct He as [<-|[<-|[<-|[]]]];
      [exists 1 | exists 2 | exists 3]; (split; [lia | reflexivity]).
  - exists e, m. auto.
Defined.


(** ** Serial creations within one financial year *)

Lemma sequencesFrom_snoc count : forall start,
  sequencesFrom start (S count)
  = (sequencesFrom start count ++ [start + Z.of_nat count])%list.
Proof.
  induction count as [|count IH]; intro start.
  - simpl. now rewrite Z.add_0_r.
  - change (sequencesFrom start (S (S count)))
      with (start :: sequencesFrom (start + 1) (S count)).
    rewrite IH. cbn [sequencesFrom app]. do 3 f_equal. lia.
Qed.

Lemma In_sequencesFrom_bounds n count : forall start,
  In n (sequencesFrom start count) -> start <= n < start + Z.of_nat count.
Proof.
  induction count as [|count IH]; intros start H; [contradiction|].
  cbn [sequencesFrom] in H. destruct H as [<-|H]; [lia|].
  apply IH in H. lia.
Qed.

Lemma to_nat_succ k : 0 <= k -> Z.to_nat (k + 1) = S (Z.to_nat k).
Proof. intro H. rewrite <- Z2Nat.inj_succ by assumption. f_equal. Qed.

Lemma allocated_entries fy k docs e :
  0 <= k -> allocated fy k docs -> In e docs ->
  (exists n, 1 <= n <= k /\ id e = Some (formatId fy n))
  /\ 1 <= _id e <= k.
Proof.
  intros Hk [Hids Hoids] Hin. split.
  - pose proof (in_map id _ _ Hin) as H. rewrite Hids in H.
    apply in_map_iff in H. destruct H as (n & Hn & Hseq).
    apply In_sequencesFrom_bounds in Hseq. exists n. split; [lia | now symmetry].
  - pose proof (in_map _id _ _ Hin) as H. rewrite Hoids in H.
    apply In_sequencesFrom_bounds in H. lia.
Qed.

Lemma allocated_last fy k docs :
  1 <= k -> allocated fy k docs ->
  exists front e,
    docs = (front ++ [e])%list
    /\ id e = Some (formatId fy k)
    /\ allocated fy (k - 1) front.
Proof.
  intros Hk [Hids Hoids].
  replace k with (k - 1 + 1) in Hids, Hoids by lia.
  rewrite to_nat_succ, sequencesFrom_snoc in Hids, Hoids by lia.
  rewrite map_app in Hids.
  apply map_eq_app in Hids. destruct Hids as (front & back & -> & Hf & Hb).
  destruct back as [|e [|e' back]]; try discriminate.
  apply (f_equal (hd None)) in Hb. cbn [hd map] in Hb.
  exists front, e. split; [reflexivity | split].
  - rewrite Hb.
    replace (1 + Z.of_nat (Z.to_nat (k - 1))) with k by lia. reflexivity.
  - split; [exact Hf|].
    rewrite map_app in Hoids. apply app_inj_tail in Hoids. tauto.
Qed.

Lemma allocated_snoc fy k docs e :
  0 <= k -> allocated fy k docs ->
  id e = Some (formatId fy (k + 1)) -> _id e = k + 1 ->
  allocated fy (k + 1) (docs ++ [e]).
Proof.
  intros Hk [Hids Hoids] Hid Hoid. unfold allocated.
  rewrite to_nat_succ, sequencesFrom_snoc, !map_app, Hids, Hoids by assumption.
  cbn [map]. rewrite Hid, Hoid.
  replace (1 + Z.of_nat (Z.to_nat k)) with (k + 1) by lia.
  split; reflexivity.
Qed.

Lemma formatId_injective fy n m :
  0 <= n <= 10000 -> 0 <= m <= 10000 -> formatId fy n = formatId fy m -> n = m.
Proof.
  intros Hn Hm H.
  pose proof (sequence_of_formatId fy n Hn) as H1.
  rewrite H, (sequence_of_formatId fy m Hm) in H1. now injection H1.
Qed.

Lemma allocated_lookup fy k docs :
  0 <= k <= 9999 -> allocated fy k docs ->
  nextSequence (findLastEntry fy docs) = k + 1.
Proof.
  intros Hk Hall.
  destruct (Z.eq_dec k 0) as [->|Hpos].
  - destruct Hall as [Hids _]. simpl in Hids.
    apply map_eq_nil in Hids. subst docs. reflexivity.
  - destruct (allocated_last fy k docs ltac:(lia) Hall) as (front & e & Hd & He & _).
    destruct (findLastEntry_greatest fy docs) as (g & m & _ & Hin & Hm & Hg & Hmax & Hnext).
    + subst docs. now destruct front.
    + intros x Hx.
      destruct (proj1 (allocated_entries fy k docs x ltac:(lia) Hall Hx))
        as (n & Hn & Hid).
      exists n. split; [lia | exact Hid].
    + rewrite Hnext. f_equal.
      destruct (proj1 (allocated_entries fy k docs g ltac:(lia) Hall Hin))
        as (n & Hn & Hid).
      assert (Heq : formatId fy m = formatId fy n) by congruence.
      apply formatId_injective in Heq; [|lia|lia]. subst n.
      assert (k <= m); [|lia].
      apply (Hmax e k); [subst docs; apply in_or_app; right; now left | lia | exact He].
Qed.

Lemma allocated_fresh fy k docs :
  0 <= k <= 9999 -> allocated fy k docs ->
  oidTaken docs (k + 1) = false /\ idTaken docs (formatId fy (k + 1)) = false.
Proof.
  intros Hk Hall. unfold oidTaken, idTaken. split.
  - destruct (existsb _ docs) eqn:E; [|reflexivity].
    apply existsb_exists in E. destruct E as (e & Hin & He).
    apply Z.eqb_eq in He.
    pose proof (proj2 (allocated_entries fy k docs e ltac:(lia) Hall Hin)). lia.
  - destruct (existsb _ docs) eqn:E; [|reflexivity].
    apply existsb_exists in E. destruct E as (e & Hin & He).
    destruct (proj1 (allocated_entries fy k docs e ltac:(lia) Hall Hin))
      as (n & Hn & Hid).
    rewrite Hid in He. apply String.eqb_eq in He.
    apply formatId_injective in He; lia.
Qed.

(** What the create route does with the plain body of request [k]. *)
Lemma postEntry_plain k docs :
  postEntry (envAt k) docs alice plainBody
  = let newId :=
      formatId "2024-25" (nextSequence (findLastEntry "2024-25" docs)) in
    let doc := withId (newDocument (envAt k) alice plainBody) (Some newId) in
    if oidTaken docs k || idTaken docs newId then (ServerError, docs)
    else (EntryCreated doc, (docs ++ [doc])%list).
Proof.
  unfold postEntry, create.
  change (validateTransportEntry plainBody) with (@nil string).
  change (castFailures plainBody ++ schemaErrors true plainBody)%list
    with (@nil string).
  cbv iota beta zeta.
  change (preSave docs (newDocument (envAt k) alice plainBody))
    with (withId (newDocument (envAt k) alice plainBody)
            (Some (formatId "2024-25"
                     (nextSequence (findLastEntry "2024-25" docs))))).
  cbn [_id withId newDocument newObjectId envAt idString id].
  destruct (oidTaken docs k || idTaken docs _); reflexivity.
Qed.

Lemma serial_step k docs :
  0 <= k <= 9999 -> allocated "2024-25" k docs ->
  exists e,
    postEntry (envAt (k + 1)) docs alice plainBody
    = (EntryCreated e, (docs ++ [e])%list)
    /\ id e = Some (formatId "2024-25" (k + 1))
    /\ allocated "2024-25" (k + 1) (docs ++ [e]).
Proof.
  intros Hk Hall. rewrite postEntry_plain. cbv zeta.
  rewrite (allocated_lookup _ k docs Hk Hall).
  destruct (allocated_fresh _ k docs Hk Hall) as [-> ->]. cbn [orb].
  eexists. split; [reflexivity | split; [reflexivity|]].
  apply allocated_snoc; [lia | exact Hall | reflexivity | reflexivity].
Qed.

(** For at most 10000 creations from a collection without identifiers
    of the year, the allocator hands out the sequences in order. *)
Lemma serial_run count : forall k docs,
  0 <= k -> k + Z.of_nat count <= 10000 ->
  allocated "2024-25" k docs ->
  exists rs docs',
    serialCreates (k + 1) count docs = (rs, docs')
    /\ allocated "2024-25" (k + Z.of_nat count) docs'
    /\ map createdId rs
       = map (fun i => Some (formatId "2024-25" i)) (sequencesFrom (k + 1) count).
Proof.
  induction count as [|count IH]; intros k docs Hk Hle Hall.
  - exists [], docs. change (Z.of_nat 0) with 0. rewrite Z.add_0_r.
    split; [reflexivity | split; [assumption | reflexivity]].
  - destruct (serial_step k docs ltac:(lia) Hall) as (e & Hpost & Hid & Hall').
    destruct (IH (k + 1) (docs ++ [e])%list ltac:(lia) ltac:(lia) Hall')
      as (rs & docs' & Hrun & Hall'' & Hmap).
    exists (EntryCreated e :: rs), docs'.
    cbn [serialCreates]. rewrite Hpost, Hrun.
    replace (k + Z.of_nat (S count)) with (k + 1 + Z.of_nat count) by lia.
    split; [reflexivity | split; [exact Hall''|]].
    cbn [map sequencesFrom createdId]. now rewrite Hid, Hmap.
Qed.

Lemma lookup_at_10000 docs :
  allocated "2024-25" 10000 docs ->
  nextSequence (findLastEntry "2024-25" docs) = 10000
  /\ idTaken docs (formatId "2024-25" 10000) = true.
Proof.
  intro Hall.
  destruct (allocated_last _ 10000 docs ltac:(lia) Hall)
    as (front & e & -> & He & Hfront).
  change (10000 - 1) with 9999 in Hfront.
  split.
  - destruct (allocated_last _ 9999 front ltac:(lia) Hfront)
      as (front' & e9 & Hd & He9 & _).
    destruct (findLastEntry_greatest "2024-25" front)
      as (g & m & Hfind & Hin & Hm & Hg & Hmax & _).
    + subst front. now destruct front'.
    + intros x Hx.
      destruct (proj1 (allocated_entries _ 9999 front x ltac:(lia) Hfront Hx))
        as (n & Hn & Hid).
      exists n. split; [lia | exact Hid].
    + assert (Hm9 : m = 9999).
      { assert (9999 <= m); [|lia].
        apply (Hmax e9 9999); [subst front; apply in_or_app; right; now left
                              | lia | exact He9]. }
      subst m.
      unfold findLastEntry in *.
      rewrite filter_app, fold_left_app.
      rewrite Hfind.
      cbn [filter]. rewrite (matchesYear_formatId _ e 10000 He).
      cbn [fold_left pickGreater].
      unfold idString at 1 2. rewrite Hg, He.
      replace (String.ltb (formatId "2024-25" 9999) (formatId "2024-25" 10000))
        with false by (vm_compute; reflexivity).
      change 10000 with (9999 + 1).
      apply nextSequence_formatId with "2024-25"; [lia | exact Hg].
  - unfold idTaken. apply existsb_exists. exists e.
    split; [apply in_or_app; right; now left|].
    rewrite He. apply String.eqb_refl.
Qed.

(** C1 on the code: 10000 creations dated 1 April 2024, served one
    after the other from an empty collection, receive the sequences 0001 to
    10000 in order; the next creation finds TE-FY2024-25-9999 as the
    greatest identifier, is assigned TE-FY2024-25-10000 a second time and
    is refused by the unique index. *)
Theorem serial_allocation_repeats_10000 :
  exists rs docs,
    serialCreates 1 (Z.to_nat 10000) [] = (rs, docs)
    /\ map createdId rs
       = map (fun i => Some (formatId "2024-25" i))
           (sequencesFrom 1 (Z.to_nat 10000))
    /\ hd None (map createdId rs) = Some "TE-FY2024-25-0001"
    /\ List.last (map createdId rs) None = Some "TE-FY2024-25-10000"
    /\ generateId docs (april1 2024) = "TE-FY2024-25-10000"
    /\ idTaken docs "TE-FY2024-25-10000" = true
    /\ postEntry (envAt 10001) docs alice plainBody = (ServerError, docs).
Proof.
  destruct (serial_run (Z.to_nat 10000) 0 []) as (rs & docs & Hrun & Hall & Hmap).
  - lia.
  - lia.
  - split; reflexivity.
  - exists rs, docs.
    replace (0 + Z.of_nat (Z.to_nat 10000)) with 10000 in Hall by lia.
    destruct (lookup_at_10000 docs Hall) as [Hnext Htaken].
    change (formatId "2024-25" 10000) with "TE-FY2024-25-10000" in Htaken.
    split; [exact Hrun | split; [exact Hmap|]].
    split; [|split; [|split; [|split]]].
    + rewrite Hmap.
      change (Z.to_nat 10000) with (S (Z.to_nat 9999)). reflexivity.
    + rewrite Hmap.
      change 10000 with (9999 + 1) at 1. rewrite to_nat_succ by lia.
      rewrite sequencesFrom_snoc, map_app. cbn [map]. rewrite last_last.
      replace (1 + Z.of_nat (Z.to_nat 9999)) with 10000 by lia. reflexivity.
    + change (generateId docs (april1 2024))
        with (formatId "2024-25" (nextSequence (findLastEntry "2024-25" docs))).
      rewrite Hnext. reflexivity.
    + exact Htaken.
    + rewrite postEntry_plain. cbv zeta. rewrite Hnext.
      change (formatId "2024-25" 10000) with "TE-FY2024-25-10000".
      rewrite Htaken, orb_true_r. reflexivity.
Qed.

End AllocatorFacts.

(* ================================================================== *)
(** * Numbers and their decimal text                                     *)
(* ================================================================== *)

Module NumberTextFacts.
Import Routes.

Lemma digitValue_of_digit c :
  Js.isDigit c = true ->
  Js.digitValue 10 c = Some (Z.of_N (N_of_ascii c) - 48)
  /\ 0 <= Z.of_N (N_of_ascii c) - 48 <= 9.
Proof.
  intro H. unfold Js.digitValue. rewrite H. cbv zeta.
  unfold Js.isDigit in H. cbv zeta in H. apply andb_prop in H.
  destruct H as [H1 H2]. apply N.leb_le in H1, H2.
  assert (Hlt : (Z.of_N (N_of_ascii c) - 48 <? 10) = true) by (apply Z.ltb_lt; lia).
  rewrite Hlt. split; [reflexivity | lia].
Qed.

(** The digits of a decimal numeral are parsed to its value, continuing
    from the accumulator. *)
Lemma parseDigits_numeral d : forall a,
  Js.parseDigits 10 (NilEmpty.string_of_uint d) (Some (Z.of_N a))
  = Some (Z.of_N (DecimalPos.Unsigned.of_lu (Decimal.rev d)
                  + a * 10 ^ DecimalPos.Unsigned.usize d)).
Proof.
  induction d; intro a;
    [ simpl; now rewrite N.mul_1_r | .. ];
    cbn [NilEmpty.string_of_uint Js.parseDigits];
    match goal with
    | |- context [Js.digitValue 10 ?c] =>
        change (Js.digitValue 10 c)
          with (Some (Z.of_N (N_of_ascii c) - 48))
    end;
    cbv iota beta;
    match goal with
    | |- Js.parseDigits 10 _ (Some (Z.of_N ?x * 10 + ?k)) = _ =>
        replace (Z.of_N x * 10 + k) with (Z.of_N (x * 10 + Z.to_N k)) by
          (rewrite N2Z.inj_add, N2Z.inj_mul; reflexivity)
    end;
    rewrite IHd; do 2 f_equal;
    match goal with
    | |- context [Decimal.rev (?f d)] =>
        change (Decimal.rev (f d)) with (Decimal.revapp d (f Decimal.Nil));
        rewrite (DecimalPos.Unsigned.of_lu_revapp d (f Decimal.Nil))
    end;
    match goal with
    | |- context [Z.to_N ?z] =>
        let v := eval vm_compute in (Z.to_N z) in change (Z.to_N z) with v
    end;
    cbn [DecimalPos.Unsigned.usize DecimalPos.Unsigned.of_lu];
    rewrite N.pow_succ_r';
    nia.
Qed.

Lemma numeral_digits d :
  Validators.allChars Js.isDigit (NilEmpty.string_of_uint d) = true.
Proof. induction d; simpl; auto. Qed.

Lemma numeral_nonempty d :
  d <> Decimal.Nil -> NilEmpty.string_of_uint d <> EmptyString.
Proof. destruct d; simpl; intro H; try discriminate. now elim H. Qed.

Lemma parseDigits_from_none s :
  Validators.matchesClassPlus Js.isDigit s = true ->
  Js.parseDigits 10 s None = Js.parseDigits 10 s (Some 0).
Proof.
  destruct s as [|c rest]; [discriminate|]. simpl. intro H.
  apply andb_prop in H. destruct H as [Hc _].
  destruct (digitValue_of_digit c Hc) as [-> _]. reflexivity.
Qed.

Lemma parseDigits_leading_zeros k s :
  Js.parseDigits 10 (Js.repeatChar "0" k ++ s) (Some 0)
  = Js.parseDigits 10 s (Some 0).
Proof. induction k as [|k IH]; simpl; [reflexivity | exact IH]. Qed.

Lemma allChars_app p a b :
  Validators.allChars p (a ++ b)
  = Validators.allChars p a && Validators.allChars p b.
Proof.
  induction a as [|c a IH]; simpl; [reflexivity|].
  now rewrite IH, andb_assoc.
Qed.

Lemma zeros_digits k : Validators.allChars Js.isDigit (Js.repeatChar "0" k) = true.
Proof. induction k; simpl; auto. Qed.

Lemma matchesClassPlus_intro cls s :
  s <> EmptyString -> Validators.allChars cls s = true ->
  Validators.matchesClassPlus cls s = true.
Proof. destruct s; [intro H; now elim H | auto]. Qed.

(** The text of a non-negative number consists of digits and denotes
    the number. *)
Lemma toString_nonneg n :
  0 <= n ->
  Validators.matchesClassPlus Js.isDigit (Js.toString n) = true
  /\ Js.parseDigits 10 (Js.toString n) (Some 0) = Some n.
Proof.
  intro Hn. unfold Js.toString.
  destruct n as [|p|p]; [split; reflexivity | | lia].
  cbn [Z.to_int NilEmpty.string_of_int]. split.
  - apply matchesClassPlus_intro; [|apply numeral_digits].
    apply numeral_nonempty, DecimalPos.Unsigned.to_uint_nonnil.
  - change (Some 0) with (Some (Z.of_N 0)).
    rewrite parseDigits_numeral, N.mul_0_l, N.add_0_r.
    rewrite <- DecimalPos.Unsigned.of_uint_alt, DecimalPos.Unsigned.of_to.
    reflexivity.
Qed.

Lemma append_nonempty_r a b : b <> EmptyString -> a ++ b <> EmptyString.
Proof. destruct a; simpl; [auto | discriminate]. Qed.

Lemma matchesClassPlus_nonempty cls s :
  Validators.matchesClassPlus cls s = true ->
  s <> EmptyString /\ Validators.allChars cls s = true.
Proof. destruct s; [discriminate | split; [discriminate | assumption]]. Qed.

(** A zero-padded non-negative number is a digit string that
    [parseInt] reads back. *)
Lemma padded_number_reads_back len n :
  0 <= n ->
  Validators.matchesClassPlus Js.isDigit (Js.padStart len "0" (Js.toString n)) = true
  /\ Js.parseInt (Js.padStart len "0" (Js.toString n)) = Some n.
Proof.
  intro Hn. destruct (toString_nonneg n Hn) as [Hd Hp].
  destruct (matchesClassPlus_nonempty _ _ Hd) as [Hne Hall].
  assert (Hpad : Validators.matchesClassPlus Js.isDigit
                   (Js.padStart len "0" (Js.toString n)) = true).
  { unfold Js.padStart. apply matchesClassPlus_intro.
    - now apply append_nonempty_r.
    - now rewrite allChars_app, zeros_digits, Hall. }
  split; [exact Hpad|].
  assert (Hs : Js.stripSign (Js.padStart len "0" (Js.toString n))
               = (1, Js.padStart len "0" (Js.toString n))).
  { destruct (Js.padStart len "0" (Js.toString n)) as [|c rest]; [reflexivity|].
    simpl in Hpad. apply andb_prop in Hpad. destruct Hpad as [Hc _].
    unfold Js.stripSign.
    destruct (Ascii.eqb_spec c "-") as [->|_]; [discriminate Hc|].
    destruct (Ascii.eqb_spec c "+") as [->|_]; [discriminate Hc|].
    reflexivity. }
  rewrite ListRouteFacts.parseInt_intValue
    by (unfold isIntString; now rewrite Hs).
  unfold intValue. rewrite Hs.
  rewrite (parseDigits_from_none _ Hpad).
  unfold Js.padStart. rewrite parseDigits_leading_zeros, Hp.
  cbn [option_map]. f_equal. lia.
Qed.

Lemma digits_noHyphen s :
  Validators.allChars Js.isDigit s = true -> Spec.noHyphen s = true.
Proof.
  unfold Spec.noHyphen. induction s as [|c s IH]; simpl; [reflexivity|].
  intro H. apply andb_prop in H. destruct H as [Hc Hs].
  rewrite (IH Hs), andb_true_r.
  destruct (Ascii.eqb_spec c "-") as [->|_]; [discriminate Hc | reflexivity].
Qed.

(** The text of any integer is accepted by [isInt]'s pattern and denotes
    the integer, for [isInt] and for [parseInt]. *)
Lemma toString_intValue n :
  isIntString (Js.toString n) = true
  /\ intValue (Js.toString n) = Some n
  /\ Js.parseInt (Js.toString n) = Some n.
Proof.
  assert (H : isIntString (Js.toString n) = true
              /\ intValue (Js.toString n) = Some n).
  { destruct (Z.neg_nonneg_cases n) as [Hneg|Hnn].
    - destruct n as [|p|p]; try lia.
      unfold isIntString, intValue, Js.toString.
      cbn [Z.to_int NilEmpty.string_of_int Js.stripSign Ascii.eqb Bool.eqb snd].
      destruct (toString_nonneg (Z.pos p) ltac:(lia)) as [Hd Hp].
      unfold Js.toString in Hd, Hp. cbn [Z.to_int NilEmpty.string_of_int] in Hd, Hp.
      split; [exact Hd|].
      rewrite (parseDigits_from_none _ Hd), Hp. reflexivity.
    - destruct (padded_number_reads_back 0 n Hnn) as [Hd Hp].
      change (Js.padStart 0 "0" (Js.toString n)) with (Js.toString n) in Hd, Hp.
      assert (Hi : isIntString (Js.toString n) = true).
      { unfold isIntString.
        destruct (Js.toString n) as [|c rest]; [discriminate|].
        simpl in Hd. assert (Hd' := Hd).
        apply andb_prop in Hd'. destruct Hd' as [Hc _].
        unfold Js.stripSign.
        destruct (Ascii.eqb_spec c "-") as [->|_]; [discriminate Hc|].
        destruct (Ascii.eqb_spec c "+") as [->|_]; [discriminate Hc|].
        exact Hd. }
      split; [exact Hi|].
      now rewrite <- (ListRouteFacts.parseInt_intValue _ Hi). }
  destruct H as [Hi Hv]. split; [exact Hi | split; [exact Hv|]].
  now rewrite (ListRouteFacts.parseInt_intValue _ Hi).
Qed.

(** X1. Every identifier that the allocator formats from a sequence
    within the safe integers reads back: the last hyphen-separated part of
    [TE-FY<year>-<sequence>] parses to the sequence it was formatted with,
    and the allocator continues from it with the next number, for every
    financial-year label and every sequence from 0 to
    [Number.MAX_SAFE_INTEGER], also beyond four digits.  (Above that bound
    a Number no longer holds every integer and the property is not
    claimed.) *)
Theorem formatted_sequence_reads_back fy n :
  0 <= n <= Js.MAX_SAFE_INTEGER ->
  Js.parseInt (Js.lastPart (Js.split "-" (TransportEntryModel.formatId fy n)))
  = Some n
  /\ (forall e, TransportEntryModel.id e = Some (TransportEntryModel.formatId fy n) ->
        TransportEntryModel.nextSequence (Some e) = n + 1).
Proof.
  intros [Hn _]. destruct (padded_number_reads_back 4 n Hn) as [Hd Hp].
  destruct (matchesClassPlus_nonempty _ _ Hd) as [_ Hall].
  change (Js.padStart 4 "0" (Js.toString n)) with (Spec.sequenceSuffix n)
    in Hall, Hp.
  assert (H : Js.parseInt (Js.lastPart (Js.split "-"
                (TransportEntryModel.formatId fy n))) = Some n).
  { rewrite AllocatorFacts.formatId_suffix, AllocatorFacts.idPrefix_shape,
      AllocatorFacts.append_assoc.
    change ("-" ++ Spec.sequenceSuffix n) with (String "-" (Spec.sequenceSuffix n)).
    rewrite AllocatorFacts.lastPart_split_after.
    rewrite (AllocatorFacts.split_without_separator _ (digits_noHyphen _ Hall)).
    exact Hp. }
  split; [exact H|].
  intros e He. unfold TransportEntryModel.nextSequence, TransportEntryModel.idString.
  now rewrite He, H.
Qed.

Lemma formatted_sequence_reads_back_witness :
  Js.parseInt (Js.lastPart (Js.split "-"
                 (TransportEntryModel.formatId "2031-32" 123456)))
  = Some 123456.
Proof.
  apply (formatted_sequence_reads_back "2031-32" 123456).
  unfold Js.MAX_SAFE_INTEGER. lia.
Defined.

End NumberTextFacts.

(* ================================================================== *)
(** * More properties of the list route                                  *)
(* ================================================================== *)

Module ListPagesFacts.
Import Mongoose TransportEntryModel Routes Fixtures Requests.

Lemma isInt_of_text lo hi v :
  isInt lo hi (Js.toString v)
  = match lo with Some m => m <=? v | None => true end
    && match hi with Some m => v <=? m | None => true end.
Proof.
  unfold isInt.
  destruct (NumberTextFacts.toString_intValue v) as (-> & -> & _). reflexivity.
Qed.

Lemma slices_concat {A} (l : nat) : forall n (xs : list A),
  (1 <= l)%nat -> (List.length xs <= n * l)%nat ->
  List.concat (map (fun i => firstn l (skipn (i * l) xs)) (seq 0 n)) = xs.
Proof.
  induction n as [|n IH]; intros xs Hl Hlen.
  - destruct xs; [reflexivity | simpl in Hlen; lia].
  - cbn [seq map List.concat]. rewrite <- seq_shift, map_map.
    cbn [Nat.mul skipn].
    rewrite (map_ext _ (fun i => firstn l (skipn (i * l) (skipn l xs)))).
    + rewrite IH; [apply firstn_skipn | assumption |].
      rewrite length_skipn. simpl in Hlen. lia.
    + intro i. rewrite skipn_skipn. do 2 f_equal. simpl. lia.
Qed.

Lemma sequencesFrom_seq n : forall start,
  Spec.sequencesFrom start n = map (fun i => start + Z.of_nat i) (seq 0 n).
Proof.
  induction n as [|n IH]; intro start; [reflexivity|].
  cbn [Spec.sequencesFrom seq map]. rewrite IH, <- seq_shift, map_map.
  f_equal; [lia|]. apply map_ext. intro i. lia.
Qed.

Lemma insert_newestFirst e l :
  newestFirst l -> newestFirst (insertByCreatedAt e l).
Proof.
  induction l as [|x l IH]; simpl; intro H.
  - split; [intros y []| exact I].
  - destruct H as [Hx Hl].
    destruct (Z.ltb_spec (createdAt x) (createdAt e)) as [Hlt|Hge].
    + cbn [newestFirst]. split; [|split; assumption].
      intros y [<-|Hy]; [lia|]. specialize (Hx y Hy). lia.
    + cbn [newestFirst]. split; [|now apply IH].
      intros y Hy. apply ListRouteFacts.insertByCreatedAt_In in Hy.
      destruct Hy as [->|Hy]; [lia | now apply Hx].
Qed.

Lemma sort_newestFirst l : newestFirst (sortByCreatedAtDesc l).
Proof.
  unfold sortByCreatedAtDesc.
  assert (G : forall acc, newestFirst acc ->
                newestFirst (fold_left (fun a e => insertByCreatedAt e a) l acc)).
  { induction l as [|e l IH]; intros acc H; [exact H|].
    apply IH. now apply insert_newestFirst. }
  apply G. exact I.
Qed.

Lemma insert_permutation e l : Permutation (insertByCreatedAt e l) (e :: l).
Proof.
  induction l as [|x l IH]; simpl; [reflexivity|].
  destruct (createdAt x <? createdAt e); [reflexivity|].
  rewrite IH. apply perm_swap.
Qed.

Lemma sort_permutation l : Permutation (sortByCreatedAtDesc l) l.
Proof.
  unfold sortByCreatedAtDesc.
  assert (G : forall acc,
             Permutation (fold_left (fun a e => insertByCreatedAt e a) l acc)
               (acc ++ l)%list).
  { induction l as [|e l IH]; intro acc; simpl.
    - now rewrite app_nil_r.
    - rewrite IH, insert_permutation. apply Permutation_middle. }
  exact (G []).
Qed.

(** Entries with different creation times have one newest-first order. *)
Lemma newestFirst_unique : forall l1 l2,
  Permutation l1 l2 -> NoDup (map createdAt l1) ->
  newestFirst l1 -> newestFirst l2 -> l1 = l2.
Proof.
  induction l1 as [|x l1 IH]; intros l2 Hp Hnd H1 H2.
  - apply Permutation_nil in Hp. now subst.
  - destruct l2 as [|y l2];
      [apply Permutation_sym, Permutation_nil in Hp; discriminate|].
    cbn [map] in Hnd. inversion Hnd as [|? ? Hnot Hnd']; subst.
    destruct H1 as [Hx H1], H2 as [Hy H2].
    assert (Hxy : x = y).
    { assert (Hyin : In y (x :: l1))
        by (apply (Permutation_in y (Permutation_sym Hp)); now left).
      destruct Hyin as [E|Hyin]; [exact E|].
      assert (Hxin : In x (y :: l2))
        by (apply (Permutation_in x Hp); now left).
      destruct Hxin as [E|Hxin]; [now symmetry|].
      pose proof (Hx y Hyin). pose proof (Hy x Hxin).
      elim Hnot. replace (createdAt x) with (createdAt y) by lia.
      now apply in_map. }
    subst y. f_equal.
    apply IH; [exact (Permutation_cons_inv Hp) | assumption..].
Qed.

Lemma skipn_newestFirst n : forall l, newestFirst l -> newestFirst (skipn n l).
Proof.
  induction n as [|n IH]; intros [|x l] H; simpl; auto.
  apply IH. apply H.
Qed.

Lemma firstn_newestFirst n : forall l, newestFirst l -> newestFirst (firstn n l).
Proof.
  induction n as [|n IH]; intros [|x l] H; simpl; auto.
  destruct H as [Hx Hl]. split; [|now apply IH].
  intros y Hy. apply Hx. now apply ListRouteFacts.In_firstn in Hy.
Qed.

Section ListPages.

Variable regexI : string -> option (string -> bool).

Lemma validate_withPage q p :
  validateQuery q = [] -> 1 <= p -> validateQuery (withPage q (Js.toString p)) = [].
Proof.
  unfold validateQuery. intros H Hp.
  apply ListRouteFacts.app_nil_both in H. destruct H as [_ H].
  cbn [query_page query_limit query_search withPage].
  rewrite isInt_of_text, H.
  destruct (Z.leb_spec 1 p); [reflexivity | lia].
Qed.

Lemma page_slice docs uid q query p :
  validateQuery q = [] ->
  buildQuery regexI uid q = Some query ->
  1 <= p ->
  listedEntries (getEntries regexI docs uid (withPage q (Js.toString p)))
  = firstn (Z.to_nat (Js.parseIntOr (query_limit q) 10))
      (skipn (Z.to_nat ((p - 1) * Js.parseIntOr (query_limit q) 10))
         (sortByCreatedAtDesc (filter query docs))).
Proof.
  intros Hv Hq Hp.
  rewrite (ListRouteFacts.getEntries_ok regexI docs uid _ query
             (validate_withPage q p Hv Hp) Hq).
  cbv zeta. cbn [listedEntries query_page query_limit withPage].
  rewrite (ListRouteFacts.parseIntOr_positive (Js.toString p) p 1
             (proj2 (proj2 (NumberTextFacts.toString_intValue p))) Hp).
  reflexivity.
Qed.

Lemma pages_are_sorted_matches docs uid q query :
  validateQuery q = [] ->
  buildQuery regexI uid q = Some query ->
  pagesRead regexI docs uid q
    (Js.ceilDiv (countDocuments query docs) (Js.parseIntOr (query_limit q) 10))
  = sortByCreatedAtDesc (filter query docs).
Proof.
  intros Hv Hq. unfold pagesRead.
  pose proof (ListRouteFacts.validated_limit q Hv) as Hl.
  set (limit := Js.parseIntOr (query_limit q) 10) in *.
  set (sorted := sortByCreatedAtDesc (filter query docs)).
  assert (Hlen : countDocuments query docs = Z.of_nat (List.length sorted)).
  { unfold sorted. now rewrite ListRouteFacts.sortByCreatedAtDesc_length. }
  pose proof (ListRouteFacts.ceilDiv_isCeiling (countDocuments query docs) limit
                ltac:(unfold countDocuments; lia) ltac:(lia)) as Hc.
  set (pages := Js.ceilDiv (countDocuments query docs) limit) in *.
  unfold Spec.isCeiling in Hc.
  unfold pageNumbers.
  rewrite (map_ext_in _
             (fun p => firstn (Z.to_nat limit)
                         (skipn (Z.to_nat ((p - 1) * limit)) sorted))).
  - rewrite sequencesFrom_seq, map_map.
    rewrite (map_ext _ (fun i => firstn (Z.to_nat limit)
                                   (skipn (i * Z.to_nat limit) sorted))).
    + apply slices_concat; [lia|]. nia.
    + intro i. do 2 f_equal. nia.
  - intros p Hin. apply AllocatorFacts.In_sequencesFrom_bounds in Hin.
    apply page_slice; [assumption | assumption | lia].
Qed.

(** X2. When the matching entries of the caller have creation times that
    all differ, reading the pages 1 to [pages] of a validated list request
    one after the other, with the same filters and limit and no write in
    between, yields exactly the matching entries, each once, newest first;
    there is only one such order of them, so the statement does not rest
    on the order that a sort gives to entries created at the same time. *)
Theorem pages_cover_matches docs uid q query :
  validateQuery q = [] ->
  buildQuery regexI uid q = Some query ->
  NoDup (map createdAt (filter query docs)) ->
  Permutation
    (pagesRead regexI docs uid q
       (Js.ceilDiv (countDocuments query docs) (Js.parseIntOr (query_limit q) 10)))
    (filter query docs)
  /\ newestFirst
       (pagesRead regexI docs uid q
          (Js.ceilDiv (countDocuments query docs)
             (Js.parseIntOr (query_limit q) 10)))
  /\ (forall l,
        Permutation l (filter query docs) -> newestFirst l ->
        l = pagesRead regexI docs uid q
              (Js.ceilDiv (countDocuments query docs)
                 (Js.parseIntOr (query_limit q) 10))).
Proof.
  intros Hv Hq Hnd.
  rewrite (pages_are_sorted_matches docs uid q query Hv Hq).
  pose proof (sort_permutation (filter query docs)) as Hp.
  split; [exact Hp|]. split; [apply sort_newestFirst|].
  intros l Hl Hs.
  apply newestFirst_unique; [| | exact Hs | apply sort_newestFirst].
  - exact (Permutation_trans Hl (Permutation_sym Hp)).
  - apply (Permutation_NoDup (Permutation_map createdAt (Permutation_sym Hl))).
    exact Hnd.
Qed.

(** X3. The entries of every successful list response are ordered by
    creation time, newest first. *)
Theorem listed_newest_first docs uid q entries pg :
  getEntries regexI docs uid q = ListOk entries pg ->
  newestFirst entries.
Proof.
  intro H.
  destruct (ListRouteFacts.getEntries_inv _ _ _ _ _ _ H) as (Hv & query & Hq).
  rewrite (ListRouteFacts.getEntries_ok regexI docs uid q query Hv Hq) in H.
  cbv zeta in H. injection H as <- _.
  apply firstn_newestFirst, skipn_newestFirst, sort_newestFirst.
Qed.

(** X4. The limit and the page of a list request are never clamped: a
    limit outside 1..5000 or a page below 1 is refused with 400, and a
    limit within 1..5000 is the limit of the envelope and bounds the
    number of entries returned. *)
Theorem limit_and_page_not_clamped docs uid q v :
  ((v < 1 \/ 5000 < v) ->
     exists errors,
       getEntries regexI docs uid (withLimit q (Js.toString v))
       = ValidationFailed errors
       /\ In "Limit must be between 1 and 5000" errors)
  /\ (v < 1 ->
      exists errors,
        getEntries regexI docs uid (withPage q (Js.toString v))
        = ValidationFailed errors
        /\ In "Page must be a positive integer" errors)
  /\ (1 <= v <= 5000 ->
      forall entries pg,
        getEntries regexI docs uid (withLimit q (Js.toString v)) = ListOk entries pg ->
        pg_limit pg = v /\ Z.of_nat (List.length entries) <= v).
Proof.
  split; [|split].
  - intro Hv. unfold getEntries, validateQuery.
    cbn [query_page query_limit query_search withLimit].
    rewrite isInt_of_text.
    replace ((1 <=? v) && (v <=? 5000)) with false
      by (symmetry; apply andb_false_iff;
          destruct Hv; [left; apply Z.leb_gt | right; apply Z.leb_gt]; lia).
    destruct (match query_page q with
              | Some s => if isInt (Some 1) None s then []
                          else ["Page must be a positive integer"]
              | None => []
              end) as [|m ms] eqn:E.
    + cbn [app]. eexists. split; [reflexivity | now left].
    + cbn [app]. eexists. split; [reflexivity|].
      right. apply in_or_app. right. now left.
  - intro Hv. unfold getEntries, validateQuery.
    cbn [query_page query_limit query_search withPage].
    rewrite isInt_of_text.
    replace ((1 <=? v) && true) with false
      by (symmetry; rewrite andb_true_r; apply Z.leb_gt; lia).
    cbn [app]. eexists. split; [reflexivity | now left].
  - intros Hv entries pg H.
    destruct (ListRouteFacts.getEntries_inv _ _ _ _ _ _ H) as (Hval & query & Hq).
    rewrite (ListRouteFacts.getEntries_ok regexI docs uid _ query Hval Hq) in H.
    cbv zeta in H. cbn [query_limit withLimit] in H.
    rewrite (ListRouteFacts.parseIntOr_positive (Js.toString v) v 10
               (proj2 (proj2 (NumberTextFacts.toString_intValue v)))
               ltac:(lia)) in H.
    injection H as <- <-. cbn [pg_limit].
    split; [reflexivity|]. rewrite length_firstn. lia.
Qed.

End ListPages.

Lemma twentyFive_created_apart :
  NoDup (map createdAt
           (filter (fun e => (userId e =? alice) && true && true && true && true)
              twentyFive)).
Proof.
  change (NoDup (map Z.of_nat (seq 1 25))).
  apply Finite.Injective_map_NoDup; [exact Nat2Z.inj | apply seq_NoDup].
Qed.

Lemma pages_cover_matches_witness :
  Permutation (pagesRead literalRegexI twentyFive alice (pageQuery "1" "10") 3)
    twentyFive
  /\ newestFirst (pagesRead literalRegexI twentyFive alice (pageQuery "1" "10") 3).
Proof.
  destruct (pages_cover_matches literalRegexI twentyFive alice (pageQuery "1" "10")
              (fun e => (userId e =? alice) && true && true && true && true)
              eq_refl eq_refl twentyFive_created_apart) as (H1 & H2 & _).
  split; [exact H1 | exact H2].
Defined.

Lemma listed_newest_first_witness :
  newestFirst (listedEntries (getEntries literalRegexI sampleDocs alice emptyQuery)).
Proof.
  apply (listed_newest_first literalRegexI sampleDocs alice emptyQuery _
           {| pg_total := 2; pg_page := 1; pg_pages := 1; pg_limit := 10;
              hasNext := false; hasPrev := false |}).
  reflexivity.
Defined.

Lemma limit_and_page_not_clamped_witness :
  exists errors,
    getEntries literalRegexI sampleDocs alice (withLimit emptyQuery (Js.toString 5001))
    = ValidationFailed errors
    /\ In "Limit must be between 1 and 5000" errors.
Proof.
  apply (proj1 (limit_and_page_not_clamped literalRegexI sampleDocs alice
                  emptyQuery 5001)).
  right. lia.
Defined.

End ListPagesFacts.

(* ================================================================== *)
(** * Properties of the writing routes                                   *)
(* ================================================================== *)

Module WriteFacts.
Import Mongoose TransportEntryModel Routes Fixtures Requests.

(** ** The collection around one document *)

Lemma find_by_id_split docs oid e :
  find (fun x => _id x =? oid) docs = Some e ->
  exists a b, docs = (a ++ e :: b)%list /\ _id e = oid
              /\ Forall (fun x => _id x <> oid) a.
Proof.
  induction docs as [|x docs IH]; simpl; [discriminate|].
  destruct (Z.eqb_spec (_id x) oid) as [Heq|Hne].
  - intro H. injection H as <-. exists [], docs. repeat split; auto.
  - intro H. destruct (IH H) as (a & b & -> & Hid & Ha).
    exists (x :: a), b. repeat split; auto.
Qed.

Lemma deleteById_split a e b oid :
  _id e = oid -> Forall (fun x => _id x <> oid) a ->
  deleteById (a ++ e :: b) oid = (a ++ b)%list.
Proof.
  intros He Ha. induction Ha as [|x a Hx Ha IH]; simpl.
  - rewrite He, Z.eqb_refl. reflexivity.
  - destruct (Z.eqb_spec (_id x) oid); [contradiction | now rewrite IH].
Qed.

Lemma replaceById_split a e b e' :
  _id e = _id e' -> Forall (fun x => _id x <> _id e') a ->
  replaceById (a ++ e :: b) e' = (a ++ e' :: b)%list.
Proof.
  intros He Ha. induction Ha as [|x a Hx Ha IH]; simpl.
  - rewrite He, Z.eqb_refl. reflexivity.
  - destruct (Z.eqb_spec (_id x) (_id e')); [contradiction | now rewrite IH].
Qed.

Lemma findOwned_sound docs oid uid e :
  findOwned docs oid uid = Some e -> In e docs /\ _id e = oid /\ userId e = uid.
Proof.
  unfold findOwned. intro H. apply find_some in H. destruct H as [Hin Hb].
  apply andb_prop in Hb. destruct Hb as [Ho Hu].
  apply Z.eqb_eq in Ho, Hu. auto.
Qed.

Lemma findOwned_has_id docs oid uid e :
  findOwned docs oid uid = Some e ->
  exists e0, find (fun x => _id x =? oid) docs = Some e0.
Proof.
  intro H. destruct (findOwned_sound _ _ _ _ H) as (Hin & Ho & _).
  destruct (find (fun x => _id x =? oid) docs) as [e0|] eqn:E; [eauto|].
  apply (find_none _ _ E) in Hin. rewrite Ho, Z.eqb_refl in Hin. discriminate.
Qed.

(** Under the index on [_id] the document found by owner is the one
    found by [_id]. *)
Lemma unique_id_same_doc a e b e0 :
  NoDup (map _id (a ++ e :: b)) -> In e0 (a ++ e :: b) -> _id e0 = _id e ->
  Forall (fun x => _id x <> _id e) a -> e0 = e.
Proof.
  intros Hnd Hin Hid Ha.
  apply in_app_or in Hin. destruct Hin as [Hin|[Heq|Hin]].
  - rewrite Forall_forall in Ha. now elim (Ha e0 Hin).
  - now symmetry.
  - rewrite map_app in Hnd. apply NoDup_remove_2 in Hnd.
    elim Hnd. apply in_or_app. right. rewrite <- Hid. now apply in_map.
Qed.

Lemma idTaken_false_iff docs s :
  idTaken docs s = false <-> ~ In s (presentIds docs).
Proof.
  unfold idTaken, presentIds. induction docs as [|e docs IH]; simpl.
  - split; [intros _ [] | reflexivity].
  - destruct (id e) as [s'|]; simpl.
    + destruct (String.eqb_spec s' s) as [->|Hne]; simpl.
      * split; [discriminate | intro H; elim H; now left].
      * rewrite IH. split; [intros H [Heq|Hin]; [contradiction | now elim H]
                           | intros H Hin; apply H; now right].
    + exact IH.
Qed.

Lemma oidTaken_false_iff docs o :
  oidTaken docs o = false <-> ~ In o (map _id docs).
Proof.
  unfold oidTaken. induction docs as [|e docs IH]; simpl.
  - split; [intros _ [] | reflexivity].
  - destruct (Z.eqb_spec (_id e) o) as [->|Hne]; simpl.
    + split; [discriminate | intro H; elim H; now left].
    + rewrite IH. split; [intros H [Heq|Hin]; [contradiction | now elim H]
                         | intros H Hin; apply H; now right].
Qed.

Lemma presentIds_app a b : presentIds (a ++ b) = (presentIds a ++ presentIds b)%list.
Proof. unfold presentIds. apply flat_map_app. Qed.

Lemma NoDup_app_swap {A} (l1 l2 : list A) : NoDup (l1 ++ l2) -> NoDup (l2 ++ l1).
Proof.
  revert l2. induction l1 as [|x l1 IH]; intros l2 H; simpl in *.
  - now rewrite app_nil_r.
  - apply NoDup_cons_iff in H. destruct H as [Hx H].
    apply NoDup_Add with (a := x) (l := (l2 ++ l1)%list).
    + apply Add_app.
    + split; [now apply IH|].
      intro Hin. apply Hx. apply in_app_or in Hin. apply in_or_app. tauto.
Qed.

(** ** Inverting the handlers *)

Lemma postEntry_created env docs uid b e docs' :
  postEntry env docs uid b = (EntryCreated e, docs') ->
  validateTransportEntry b = []
  /\ schemaErrors true b = []
  /\ e = preSave docs (newDocument env uid b)
  /\ docs' = (docs ++ [e])%list
  /\ oidTaken docs (_id e) = false
  /\ idTaken docs (idString e) = false.
Proof.
  unfold postEntry, create.
  destruct (validateTransportEntry b) eqn:Hv; [|discriminate].
  destruct (castFailures b ++ schemaErrors true b)%list eqn:Hs; [|discriminate].
  apply app_eq_nil in Hs. destruct Hs as [_ Hs].
  destruct (oidTaken docs _ || idTaken docs _) eqn:Ht; [discriminate|].
  apply orb_false_iff in Ht. destruct Ht as [Ho Hi].
  intro H. injection H as <- <-. repeat split; assumption.
Qed.

Lemma putEntry_updated docs uid idParam b e' docs' :
  putEntry docs uid idParam b = (EntryUpdated (Some e'), docs') ->
  exists oid e newUserId,
    castObjectId idParam = Some oid
    /\ validateTransportEntry b = []
    /\ findOwned docs oid uid = Some e
    /\ castUpdate b = Some newUserId
    /\ (exists e0, find (fun x => _id x =? oid) docs = Some e0
                   /\ e' = applyUpdate e0 newUserId b)
    /\ docs' = replaceById docs e'
    /\ match body_id b with
       | Some s => idTaken (deleteById docs oid) s = false
       | None => True
       end.
Proof.
  unfold putEntry, findByIdAndUpdate.
  destruct (validateTransportEntry b) eqn:Hv; [|discriminate].
  destruct (castObjectId idParam) as [oid|] eqn:Hc; [|discriminate].
  destruct (findOwned docs oid uid) as [e|] eqn:Hf; [|discriminate].
  destruct (castUpdate b) as [newUserId|] eqn:Hu; [|discriminate].
  destruct (schemaErrors false b); [|discriminate].
  destruct (find (fun x => _id x =? oid) docs) as [e0|] eqn:Hfind; [|discriminate].
  destruct (match body_id b with
            | Some s => idTaken (deleteById docs oid) s
            | None => false
            end) eqn:Ht; [discriminate|].
  intro H. injection H as <- <-.
  exists oid, e, newUserId. repeat split; auto.
  - exists e0. auto.
  - destruct (body_id b); [exact Ht | exact I].
Qed.

Lemma deleteEntry_deleted docs uid idParam docs' :
  deleteEntry docs uid idParam = (EntryDeleted, docs') ->
  exists oid e,
    castObjectId idParam = Some oid
    /\ findOwned docs oid uid = Some e
    /\ docs' = deleteById docs oid.
Proof.
  unfold deleteEntry.
  destruct (castObjectId idParam) as [oid|]; [|discriminate].
  destruct (findOwned docs oid uid) as [e|] eqn:Hf; [|discriminate].
  intro H. injection H as <-. exists oid, e. auto.
Qed.

(** X5. A write that does not succeed changes nothing: whenever the
    create, update or delete route answers outside 2xx, the collection
    after the request is the collection before it. *)
Theorem failed_write_changes_nothing env docs uid idParam b :
  (succeeded (fst (postEntry env docs uid b)) = false ->
     snd (postEntry env docs uid b) = docs)
  /\ (succeeded (fst (putEntry docs uid idParam b)) = false ->
      snd (putEntry docs uid idParam b) = docs)
  /\ (succeeded (fst (deleteEntry docs uid idParam)) = false ->
      snd (deleteEntry docs uid idParam) = docs).
Proof.
  split; [|split].
  - unfold postEntry. destruct (validateTransportEntry b); [|reflexivity].
    destruct (create env docs uid b); try reflexivity. discriminate.
  - unfold putEntry. destruct (validateTransportEntry b); [|reflexivity].
    destruct (castObjectId idParam); [|reflexivity].
    destruct (findOwned docs _ uid); [|reflexivity].
    destruct (findByIdAndUpdate docs _ b) as [[]|]; try reflexivity. discriminate.
  - unfold deleteEntry. destruct (castObjectId idParam); [|reflexivity].
    destruct (findOwned docs _ uid); [|reflexivity]. discriminate.
Qed.

Lemma failed_write_changes_nothing_witness :
  snd (putEntry sampleDocs alice (oidText 2) plainBody) = sampleDocs.
Proof.
  apply (proj1 (proj2 (failed_write_changes_nothing (envAt 1) sampleDocs alice
                         (oidText 2) plainBody))).
  reflexivity.
Defined.

Lemma postEntry_cases env docs uid b :
  (exists e, postEntry env docs uid b = (EntryCreated e, (docs ++ [e])%list))
  \/ snd (postEntry env docs uid b) = docs.
Proof.
  unfold postEntry. destruct (validateTransportEntry b); [|now right].
  unfold create. destruct (castFailures b ++ schemaErrors true b)%list; [|now right].
  destruct (oidTaken docs _ || idTaken docs _); [now right|].
  left. eexists. reflexivity.
Qed.

Lemma putEntry_cases docs uid idParam b :
  (exists e', putEntry docs uid idParam b
              = (EntryUpdated (Some e'), replaceById docs e'))
  \/ snd (putEntry docs uid idParam b) = docs.
Proof.
  unfold putEntry. destruct (validateTransportEntry b); [|now right].
  destruct (castObjectId idParam); [|now right].
  destruct (findOwned docs _ uid); [|now right].
  destruct (findByIdAndUpdate docs _ b) as [[e' docs'| | |]|] eqn:E;
    try now right.
  left. exists e'. unfold findByIdAndUpdate in E.
  destruct (castUpdate b); [|discriminate].
  destruct (schemaErrors false b); [|discriminate].
  destruct (find _ docs); [|discriminate].
  destruct (match body_id b with Some s => _ | None => false end); [discriminate|].
  injection E as <- <-. reflexivity.
Qed.

Lemma deleteEntry_cases docs uid idParam :
  fst (deleteEntry docs uid idParam) = EntryDeleted
  \/ snd (deleteEntry docs uid idParam) = docs.
Proof.
  unfold deleteEntry. destruct (castObjectId idParam); [|now right].
  destruct (findOwned docs _ uid); [now left | now right].
Qed.

(** X6. The three writing routes keep the indexes of the collection:
    if no two documents share an [_id] or a business id before a create,
    update or delete request, none do after it. *)
Theorem writes_keep_indexes env docs uid idParam b :
  indexesHold docs ->
  indexesHold (snd (postEntry env docs uid b))
  /\ indexesHold (snd (putEntry docs uid idParam b))
  /\ indexesHold (snd (deleteEntry docs uid idParam)).
Proof.
  intros Hidx. assert (Hidx' := Hidx). destruct Hidx' as [Hoid Hbid].
  split; [|split].
  - destruct (postEntry_cases env docs uid b) as [[e E]| ->]; [|exact Hidx].
    rewrite E. cbn [snd].
    destruct (postEntry_created _ _ _ _ _ _ E) as (_ & _ & _ & _ & Ho & Hi).
    split.
    + rewrite map_app. apply NoDup_app_swap. cbn [map app].
      constructor; [now apply oidTaken_false_iff | assumption].
    + rewrite presentIds_app. apply NoDup_app_swap.
      unfold presentIds at 1. cbn [flat_map]. rewrite app_nil_r.
      unfold idString in Hi. destruct (id e) as [s|]; cbn [app].
      * constructor; [now apply idTaken_false_iff | assumption].
      * assumption.
  - destruct (putEntry_cases docs uid idParam b) as [[e' E]| ->]; [|exact Hidx].
    rewrite E. cbn [snd].
    destruct (putEntry_updated _ _ _ _ _ _ E)
      as (oid & e & nu & _ & _ & _ & _ & (e0 & Hfind & ->) & _ & Hfree).
    destruct (find_by_id_split _ _ _ Hfind) as (a & c & -> & Hid & Ha).
    assert (Ha' : Forall (fun x => _id x <> _id (applyUpdate e0 nu b)) a)
      by (cbn [_id applyUpdate]; now rewrite Hid).
    rewrite (replaceById_split a e0 c (applyUpdate e0 nu b) eq_refl Ha').
    rewrite (deleteById_split a e0 c oid Hid Ha) in Hfree.
    split.
    + rewrite map_app in *. cbn [map _id applyUpdate] in *. assumption.
    + rewrite presentIds_app in *. unfold presentIds at 2.
      unfold presentIds at 2 in Hbid. cbn [flat_map] in *.
      fold (presentIds c) in *.
      cbn [id applyUpdate].
      destruct (body_id b) as [s|]; [|assumption].
      apply idTaken_false_iff in Hfree. rewrite presentIds_app in Hfree.
      cbn [app]. apply NoDup_app_swap. cbn [app].
      constructor.
      * intro Hin. apply Hfree. apply in_app_or in Hin.
        apply in_or_app. tauto.
      * apply NoDup_app_swap.
        destruct (id e0); cbn [app] in Hbid; [|assumption].
        now apply NoDup_remove_1 in Hbid.
  - destruct (deleteEntry_cases docs uid idParam) as [E| ->]; [|exact Hidx].
    destruct (deleteEntry docs uid idParam) as [r docs'] eqn:E'.
    cbn [fst snd] in *. subst r.
    destruct (deleteEntry_deleted _ _ _ _ E') as (oid & e & _ & Hf & ->).
    destruct (findOwned_has_id _ _ _ _ Hf) as [e0 Hfind].
    destruct (find_by_id_split _ _ _ Hfind) as (a & c & -> & Hid & Ha).
    rewrite (deleteById_split a e0 c oid Hid Ha).
    split.
    + rewrite map_app in *. cbn [map] in Hoid. now apply NoDup_remove_1 in Hoid.
    + rewrite presentIds_app in *. unfold presentIds at 2 in Hbid.
      cbn [flat_map] in Hbid. fold (presentIds c) in Hbid.
      destruct (id e0); cbn [app] in Hbid; [|assumption].
      now apply NoDup_remove_1 in Hbid.
Qed.

Lemma sample_indexes : indexesHold sampleDocs.
Proof.
  split; cbn.
  - repeat constructor; cbn; intuition discriminate.
  - repeat constructor; cbn; intuition discriminate.
Qed.

Lemma writes_keep_indexes_witness :
  indexesHold (snd (postEntry (envAt 9) sampleDocs alice plainBody))
  /\ indexesHold (snd (deleteEntry sampleDocs alice (oidText 1))).
Proof.
  destruct (writes_keep_indexes (envAt 9) sampleDocs alice (oidText 1) plainBody
              sample_indexes) as (H1 & _ & H3).
  split; assumption.
Defined.

(** X7. No write of a caller touches an entry of another user: under
    the index on [_id], every document that belongs to someone else is in
    the collection after a create, update or delete request of the caller,
    field for field as before. *)
Theorem writes_leave_foreign_entries env docs uid idParam b x :
  NoDup (map _id docs) ->
  In x docs -> userId x <> uid ->
  In x (snd (postEntry env docs uid b))
  /\ In x (snd (putEntry docs uid idParam b))
  /\ In x (snd (deleteEntry docs uid idParam)).
Proof.
  intros Hnd Hin Hother. split; [|split].
  - destruct (postEntry_cases env docs uid b) as [[e ->]| ->]; [|exact Hin].
    cbn [snd]. apply in_or_app. now left.
  - destruct (putEntry_cases docs uid idParam b) as [[e' E]| ->]; [|exact Hin].
    rewrite E. cbn [snd].
    destruct (putEntry_updated _ _ _ _ _ _ E)
      as (oid & e & nu & _ & _ & Hf & _ & (e0 & Hfind & ->) & _ & _).
    destruct (find_by_id_split _ _ _ Hfind) as (a & c & -> & Hid & Ha).
    assert (Ha' : Forall (fun y => _id y <> _id (applyUpdate e0 nu b)) a)
      by (cbn [_id applyUpdate]; now rewrite Hid).
    rewrite (replaceById_split a e0 c (applyUpdate e0 nu b) eq_refl Ha').
    destruct (findOwned_sound _ _ _ _ Hf) as (Hein & Heid & Heu).
    assert (e = e0).
    { apply (unique_id_same_doc a e0 c e Hnd Hein); [congruence|].
      now rewrite Hid. }
    subst e0.
    apply in_app_or in Hin. apply in_or_app.
    destruct Hin as [Hin|[Heq|Hin]]; [now left | | right; now right].
    subst x. contradiction.
  - destruct (deleteEntry_cases docs uid idParam) as [E| ->]; [|exact Hin].
    destruct (deleteEntry docs uid idParam) as [r docs'] eqn:E'.
    cbn [fst snd] in *. subst r.
    destruct (deleteEntry_deleted _ _ _ _ E') as (oid & e & _ & Hf & ->).
    destruct (findOwned_has_id _ _ _ _ Hf) as [e0 Hfind].
    destruct (find_by_id_split _ _ _ Hfind) as (a & c & -> & Hid & Ha).
    rewrite (deleteById_split a e0 c oid Hid Ha).
    destruct (findOwned_sound _ _ _ _ Hf) as (Hein & Heid & Heu).
    assert (e = e0).
    { apply (unique_id_same_doc a e0 c e Hnd Hein); [congruence|].
      now rewrite Hid. }
    subst e0.
    apply in_app_or in Hin. apply in_or_app.
    destruct Hin as [Hin|[Heq|Hin]]; [now left | | now right].
    subst x. contradiction.
Qed.

Lemma writes_leave_foreign_entries_witness :
  In (sampleEntry 2 bob "TE-FY2024-25-0002" (Spec.april1 2024) 250 COMPLETED 20)
     (snd (deleteEntry sampleDocs alice (oidText 1))).
Proof.
  apply (writes_leave_foreign_entries (envAt 9) sampleDocs alice (oidText 1)
           plainBody).
  - exact (proj1 sample_indexes).
  - right. now left.
  - discriminate.
Defined.

Lemma find_after_none {A} (p : A -> bool) a b :
  find p a = None -> find p (a ++ b) = find p b.
Proof.
  induction a as [|x a IH]; simpl; [reflexivity|].
  destruct (p x); [discriminate | exact IH].
Qed.

(** X8. A created entry can be read back: after a 201 the read route
    answers the caller with exactly the created entry under its [_id], and
    answers every other user 404. *)
Theorem created_entry_reads_back env docs uid b e docs' idParam :
  postEntry env docs uid b = (EntryCreated e, docs') ->
  castObjectId idParam = Some (_id e) ->
  getEntry docs' uid idParam = EntryOk e
  /\ userId e = uid
  /\ (forall other, other <> uid -> getEntry docs' other idParam = EntryNotFound).
Proof.
  intros E Hc.
  destruct (postEntry_created _ _ _ _ _ _ E) as (_ & _ & He & -> & Ho & _).
  assert (Hu : userId e = uid).
  { rewrite He. unfold preSave.
    destruct (negb (Js.truthy (id (newDocument env uid b)))); reflexivity. }
  assert (Hnone : forall who,
            find (fun x => (_id x =? _id e) && (userId x =? who)) docs = None).
  { intro who. destruct (find _ docs) as [x|] eqn:F; [|reflexivity].
    apply find_some in F. destruct F as [Hin Hb].
    apply andb_prop in Hb. destruct Hb as [Hb _]. apply Z.eqb_eq in Hb.
    apply oidTaken_false_iff in Ho. elim Ho. rewrite <- Hb. now apply in_map. }
  unfold getEntry, findOwned. rewrite Hc.
  split; [|split; [exact Hu|]].
  - rewrite (find_after_none _ _ _ (Hnone uid)). cbn [find].
    now rewrite Hu, !Z.eqb_refl.
  - intros other Hne. rewrite (find_after_none _ _ _ (Hnone other)). cbn [find].
    rewrite Hu, Z.eqb_refl.
    destruct (Z.eqb_spec uid other); [now elim Hne | reflexivity].
Qed.

Lemma created_entry_reads_back_witness :
  exists e, getEntry (snd (postEntry (envAt 9) sampleDocs alice plainBody))
              alice (oidText 9) = EntryOk e.
Proof.
  eexists.
  apply (created_entry_reads_back (envAt 9) sampleDocs alice plainBody _ _
           (oidText 9) eq_refl eq_refl).
Defined.

(** X9. A delete removes exactly the addressed entry of the caller:
    under the index on [_id], after a successful delete the collection has
    one document less, the same request is answered 404, and every other
    document is still there. *)
Theorem delete_removes_one docs uid idParam docs' :
  NoDup (map _id docs) ->
  deleteEntry docs uid idParam = (EntryDeleted, docs') ->
  exists e,
    getEntry docs uid idParam = EntryOk e
    /\ S (List.length docs') = List.length docs
    /\ ~ In e docs'
    /\ (forall x, In x docs -> x <> e -> In x docs')
    /\ (forall x, In x docs' -> In x docs)
    /\ getEntry docs' uid idParam = EntryNotFound
    /\ deleteEntry docs' uid idParam = (EntryNotFound, docs').
Proof.
  intros Hnd E.
  destruct (deleteEntry_deleted _ _ _ _ E) as (oid & e & Hc & Hf & ->).
  destruct (findOwned_has_id _ _ _ _ Hf) as [e0 Hfind].
  destruct (find_by_id_split _ _ _ Hfind) as (a & c & Hd & Hid & Ha).
  destruct (findOwned_sound _ _ _ _ Hf) as (Hein & Heid & Heu).
  subst docs.
  assert (e = e0).
  { apply (unique_id_same_doc a e0 c e Hnd Hein); [congruence|].
    now rewrite Hid. }
  subst e0.
  rewrite (deleteById_split a e c oid Hid Ha).
  assert (Hgone : forall x, In x (a ++ c) -> _id x <> oid).
  { intros x Hx Hxo. apply in_app_or in Hx. destruct Hx as [Hx|Hx].
    - rewrite Forall_forall in Ha. now elim (Ha x Hx).
    - rewrite map_app in Hnd. apply NoDup_remove_2 in Hnd.
      elim Hnd. apply in_or_app. right. rewrite Heid, <- Hxo. now apply in_map. }
  assert (Hnf : findOwned (a ++ c) oid uid = None).
  { unfold findOwned. destruct (find _ (a ++ c)%list) as [x|] eqn:F; [|reflexivity].
    apply find_some in F. destruct F as [Hx Hb].
    apply andb_prop in Hb. destruct Hb as [Hb _]. apply Z.eqb_eq in Hb.
    now elim (Hgone x Hx). }
  exists e. repeat split.
  - unfold getEntry. now rewrite Hc, Hf.
  - rewrite !length_app. simpl. lia.
  - intro Hin. now elim (Hgone e Hin).
  - intros x Hx Hne. apply in_app_or in Hx. apply in_or_app.
    destruct Hx as [Hx|[Hx|Hx]]; [now left | now elim Hne | now right].
  - intros x Hx. apply in_app_or in Hx. apply in_or_app.
    destruct Hx; [now left | right; now right].
  - unfold getEntry. now rewrite Hc, Hnf.
  - unfold deleteEntry. now rewrite Hc, Hnf.
Qed.

Lemma delete_removes_one_witness :
  exists e,
    getEntry sampleDocs alice (oidText 3) = EntryOk e
    /\ getEntry (snd (deleteEntry sampleDocs alice (oidText 3))) alice (oidText 3)
       = EntryNotFound.
Proof.
  destruct (delete_removes_one sampleDocs alice (oidText 3)
              (snd (deleteEntry sampleDocs alice (oidText 3)))
              (proj1 sample_indexes) eq_refl)
    as (e & H1 & _ & _ & _ & _ & H2 & _).
  exists e. split; assumption.
Defined.



(** ** What a created entry looks like *)

Lemma trimStart_length s : (String.length (Js.trimStart s) <= String.length s)%nat.
Proof.
  induction s as [|c s IH]; simpl; [lia|].
  destruct (Js.isWhiteSpace c); simpl; lia.
Qed.

Lemma trimEnd_length s : (String.length (Js.trimEnd s) <= String.length s)%nat.
Proof.
  induction s as [|c s IH]; simpl; [lia|].
  destruct (Js.trimEnd s); [destruct (Js.isWhiteSpace c)|]; simpl in *; lia.
Qed.

Lemma trim_length s : (String.length (Js.trim s) <= String.length s)%nat.
Proof.
  unfold Js.trim. pose proof (trimEnd_length (Js.trimStart s)).
  pose proof (trimStart_length s). lia.
Qed.






End WriteFacts.

(* ================================================================== *)
(** * More properties of the statistics route                            *)
(* ================================================================== *)

Module StatsScopeFacts.
Import Mongoose TransportEntryModel Routes Fixtures Spec.

Lemma filter_both {A} (p q : A -> bool) l :
  filter (fun x => p x && q x) l = filter q (filter p l).
Proof.
  induction l as [|x l IH]; simpl; [reflexivity|].
  destruct (p x); simpl; [destruct (q x); now rewrite IH | exact IH].
Qed.

Lemma filter_length_le {A} (p : A -> bool) l :
  (List.length (filter p l) <= List.length l)%nat.
Proof.
  induction l as [|x l IH]; simpl; [lia|]. destruct (p x); simpl; lia.
Qed.

Lemma getStats_scope env docs uid :
  getStats env docs uid
  = StatsOk
      {| totalEntries := Z.of_nat (List.length (entriesOf uid docs));
         statusBreakdown := groupByStatus (entriesOf uid docs);
         totalAmount :=
           match groupTotal env (entriesOf uid docs) with
           | t :: _ => Js.orNumber t 0
           | [] => 0%float
           end;
         recentEntries :=
           Z.of_nat (List.length
                       (filter (fun e => nowMs env - 604800000 <=? createdAt e)
                          (entriesOf uid docs))) |}.
Proof.
  unfold getStats, countDocuments, entriesOf. cbv zeta.
  now rewrite filter_both.
Qed.

(** X12. The statistics of a user depend on that user's entries only:
    two collections that hold the same entries of the user give the same
    answer, whatever else they hold; the recent count never exceeds the
    total and the breakdown has at most five groups (the four statuses and
    entries without one). *)
Theorem stats_scope env docs1 docs2 uid :
  entriesOf uid docs1 = entriesOf uid docs2 ->
  getStats env docs1 uid = getStats env docs2 uid
  /\ (forall st, getStats env docs1 uid = StatsOk st ->
        0 <= recentEntries st <= totalEntries st
        /\ (List.length (statusBreakdown st) <= 5)%nat).
Proof.
  intro H. split; [now rewrite !getStats_scope, H|].
  intros st Hst. rewrite getStats_scope in Hst. injection Hst as <-.
  cbn [recentEntries totalEntries statusBreakdown]. split.
  - pose proof (filter_length_le
                  (fun e => nowMs env - 604800000 <=? createdAt e)
                  (entriesOf uid docs1)). lia.
  - destruct (StatsFacts.groups_fold (entriesOf uid docs1) []
                (NoDup_nil _) (Forall_nil _)) as (Hnd & _).
    unfold groupsAfter in Hnd. fold (groupByStatus (entriesOf uid docs1)) in Hnd.
    rewrite <- (length_map fst).
    apply (NoDup_incl_length Hnd
             (l' := [None; Some PENDING; Some IN_PROGRESS; Some COMPLETED;
                     Some CANCELLED])).
    intros [[]|] _; cbn; tauto.
Qed.

Lemma stats_scope_witness :
  getStats (envAt 40) sampleDocs alice
  = getStats (envAt 40) (entriesOf alice sampleDocs) alice.
Proof.
  apply (stats_scope (envAt 40) sampleDocs (entriesOf alice sampleDocs) alice).
  reflexivity.
Defined.

End StatsScopeFacts.

(* ================================================================== *)
(** * Properties of the password, sanitising and pincode validators      *)
(* ================================================================== *)

Module ValidatorUtilsFacts.
Import Validators ValidatorUtils.

Lemma issues_nil_iff password :
  passwordIssues password = []
  <-> (8 <= String.length password)%nat
      /\ existsChar Js.isLower password = true
      /\ existsChar Js.isUpper password = true
      /\ existsChar Js.isDigit password = true
      /\ existsChar isSpecial password = true.
Proof.
  unfold passwordIssues.
  destruct (Nat.ltb_spec (String.length password) 6) as [H6|H6].
  { split; [discriminate | lia]. }
  destruct (Nat.ltb_spec (String.length password) 8) as [H8|H8].
  { split; [discriminate | lia]. }
  destruct (existsChar Js.isLower password);
    [|split; [discriminate | intros (_ & ? & _); discriminate]].
  destruct (existsChar Js.isUpper password);
    [|split; [discriminate | intros (_ & _ & ? & _); discriminate]].
  destruct (existsChar Js.isDigit password);
    [|split; [discriminate | intros (_ & _ & _ & ? & _); discriminate]].
  destruct (existsChar isSpecial password);
    [|split; [discriminate | intros (_ & _ & _ & _ & ?); discriminate]].
  split; [intros _; repeat split; lia | reflexivity].
Qed.

Lemma issues_count password : (List.length (passwordIssues password) <= 6)%nat.
Proof.
  unfold passwordIssues. rewrite !length_app.
  repeat match goal with
         | |- context [if ?c then _ else _] => destruct c
         end; simpl; lia.
Qed.

(** X13. A password is valid exactly when it has at least six
    characters, whatever it is made of; it is strong exactly when nothing
    is found wrong with it, that is when it has at least eight characters
    and contains a lower-case letter, an upper-case letter, a digit and a
    special character; at most six issues are reported. *)
Theorem password_validity password :
  isValid (validatePasswordStrength password) = (6 <=? String.length password)%nat
  /\ (strength (validatePasswordStrength password) = Strong
      <-> issues (validatePasswordStrength password) = [])
  /\ (strength (validatePasswordStrength password) = Strong
      <-> (8 <= String.length password)%nat
          /\ existsChar Js.isLower password = true
          /\ existsChar Js.isUpper password = true
          /\ existsChar Js.isDigit password = true
          /\ existsChar isSpecial password = true)
  /\ (List.length (issues (validatePasswordStrength password)) <= 6)%nat.
Proof.
  pose proof (issues_nil_iff password) as Hnil.
  pose proof (issues_count password) as Hcount.
  unfold validatePasswordStrength.
  destruct (passwordIssues password) as [|i rest] eqn:E.
  - cbn [List.length Nat.eqb isValid strength issues].
    destruct (proj1 Hnil eq_refl) as (H8 & _).
    split; [symmetry; apply Nat.leb_le; lia|].
    split; [tauto|]. split; [tauto | lia].
  - cbn [List.length Nat.eqb].
    destruct (S (List.length rest) <=? 2)%nat;
      cbn [isValid strength issues];
      (split; [reflexivity|]);
      (split; [split; discriminate|]);
      (split; [split; [discriminate | intro H; apply Hnil in H; discriminate]
              | exact Hcount]).
Qed.

(** ** Sanitising *)

Lemma removeAngles_clean s :
  existsChar (fun c => Ascii.eqb c "<" || Ascii.eqb c ">") (removeAngles s) = false.
Proof.
  induction s as [|c s IH]; simpl; [reflexivity|].
  destruct (Ascii.eqb c "<" || Ascii.eqb c ">") eqn:E; [exact IH|].
  simpl. now rewrite E, IH.
Qed.

Lemma removeAngles_length s :
  (String.length (removeAngles s) <= String.length s)%nat.
Proof.
  induction s as [|c s IH]; simpl; [lia|].
  destruct (Ascii.eqb c "<" || Ascii.eqb c ">"); simpl; lia.
Qed.

Lemma removeAngles_same s :
  existsChar (fun c => Ascii.eqb c "<" || Ascii.eqb c ">") s = false ->
  removeAngles s = s.
Proof.
  induction s as [|c s IH]; simpl; [reflexivity|].
  intro H. apply orb_false_iff in H. destruct H as [Hc Hs].
  now rewrite Hc, (IH Hs).
Qed.

Lemma trimStart_keeps_absent p s :
  existsChar p s = false -> existsChar p (Js.trimStart s) = false.
Proof.
  induction s as [|c s IH]; simpl; [reflexivity|].
  intro H. apply orb_false_iff in H. destruct H as [Hc Hs].
  destruct (Js.isWhiteSpace c); [now apply IH | simpl; now rewrite Hc, Hs].
Qed.

Lemma trimEnd_keeps_absent p s :
  existsChar p s = false -> existsChar p (Js.trimEnd s) = false.
Proof.
  induction s as [|c s IH]; simpl; [reflexivity|].
  intro H. apply orb_false_iff in H. destruct H as [Hc Hs].
  specialize (IH Hs).
  destruct (Js.trimEnd s) as [|x r].
  - destruct (Js.isWhiteSpace c); simpl; [reflexivity | now rewrite Hc].
  - cbn [existsChar]. cbn [existsChar] in IH. now rewrite Hc, IH.
Qed.

(** X14. A sanitised string holds no angle bracket and is never longer
    than the input; an input without angle brackets is only trimmed. *)
Theorem sanitize_removes_angles input :
  existsChar (fun c => Ascii.eqb c "<" || Ascii.eqb c ">") (sanitizeString input)
  = false
  /\ (String.length (sanitizeString input) <= String.length input)%nat
  /\ (existsChar (fun c => Ascii.eqb c "<" || Ascii.eqb c ">") input = false ->
      sanitizeString input = Js.trim input).
Proof.
  unfold sanitizeString. split; [apply removeAngles_clean|]. split.
  - pose proof (removeAngles_length (Js.trim input)).
    pose proof (WriteFacts.trim_length input). lia.
  - intro H. apply removeAngles_same. unfold Js.trim.
    now apply trimEnd_keeps_absent, trimStart_keeps_absent.
Qed.

Lemma sanitize_removes_angles_witness :
  sanitizeString "  plain text  " = Js.trim "  plain text  ".
Proof.
  apply (proj2 (proj2 (sanitize_removes_angles "  plain text  "))).
  reflexivity.
Defined.

(** ** Pincodes *)

Lemma pincodeHead_sound s digits rest :
  pincodeHead s = Some (digits, rest) ->
  s = digits ++ rest
  /\ String.length digits = 6%nat
  /\ pincodeHead digits = Some (digits, EmptyString).
Proof.
  unfold pincodeHead.
  destruct s as [|c1 [|c2 [|c3 [|c4 [|c5 [|c6 r]]]]]]; try discriminate.
  destruct (isNonZeroDigit c1 && Js.isDigit c2 && Js.isDigit c3 && Js.isDigit c4
            && Js.isDigit c5 && Js.isDigit c6) eqn:E; [|discriminate].
  intro H. injection H as <- <-. rewrite E. repeat split.
Qed.

Lemma nonzero_digit_value c :
  isNonZeroDigit c = true ->
  Js.isDigit c = true /\ 1 <= Z.of_N (N_of_ascii c) - 48.
Proof.
  unfold isNonZeroDigit. intro H. apply andb_prop in H. destruct H as [Hd Hz].
  split; [exact Hd|].
  destruct (NumberTextFacts.digitValue_of_digit c Hd) as [_ Hr].
  assert (Z.of_N (N_of_ascii c) - 48 <> 0); [|lia].
  intro H0. apply negb_true_iff in Hz.
  assert (Hc : N_of_ascii c = 48%N) by lia.
  apply (f_equal ascii_of_N) in Hc. rewrite ascii_N_embedding in Hc.
  subst c. discriminate.
Qed.

(** X15. A valid pincode is six characters long and reads as a number
    between 100000 and 999999. *)
Theorem valid_pincode_range pincode :
  isValidPincode pincode = true ->
  String.length pincode = 6%nat
  /\ exists v, Js.parseInt pincode = Some v /\ 100000 <= v <= 999999.
Proof.
  unfold isValidPincode, pincodeHead.
  destruct pincode as [|c1 [|c2 [|c3 [|c4 [|c5 [|c6 r]]]]]]; try discriminate.
  destruct (isNonZeroDigit c1 && Js.isDigit c2 && Js.isDigit c3 && Js.isDigit c4
            && Js.isDigit c5 && Js.isDigit c6) eqn:E; [|discriminate].
  destruct r; [|discriminate]. intros _. split; [reflexivity|].
  do 5 (apply andb_prop in E; destruct E as [E ?]).
  destruct (nonzero_digit_value c1 E) as [Hd1 Hv1].
  assert (Hint : Routes.isIntString
                   (String c1 (String c2 (String c3 (String c4 (String c5
                      (String c6 EmptyString)))))) = true).
  { unfold Routes.isIntString, Js.stripSign.
    destruct (Ascii.eqb_spec c1 "-") as [->|_]; [discriminate Hd1|].
    destruct (Ascii.eqb_spec c1 "+") as [->|_]; [discriminate Hd1|].
    cbn [snd matchesClassPlus allChars]. rewrite Hd1.
    repeat match goal with H : Js.isDigit _ = true |- _ => rewrite H; clear H end.
    reflexivity. }
  rewrite (ListRouteFacts.parseInt_intValue _ Hint).
  unfold Routes.intValue, Js.stripSign.
  destruct (Ascii.eqb_spec c1 "-") as [->|_]; [discriminate Hd1|].
  destruct (Ascii.eqb_spec c1 "+") as [->|_]; [discriminate Hd1|].
  cbn [Js.parseDigits].
  repeat match goal with
         | H : Js.isDigit ?c = true |- _ =>
             destruct (NumberTextFacts.digitValue_of_digit c H) as [-> ?]; clear H
         end.
  cbn [option_map]. eexists. split; [reflexivity|]. lia.
Qed.

Lemma valid_pincode_range_witness :
  exists v, Js.parseInt "411001" = Some v /\ 100000 <= v <= 999999.
Proof. exact (proj2 (valid_pincode_range "411001" eq_refl)). Defined.

Lemma matchPincode_sound s : forall prevWord p,
  matchPincode prevWord s = Some p ->
  isValidPincode p = true /\ exists before after, s = before ++ p ++ after.
Proof.
  induction s as [|c s IH]; intros w p H; [discriminate|].
  cbn [matchPincode] in H.
  assert (Hskip : matchPincode (isWordChar c) s = Some p ->
                  isValidPincode p = true
                  /\ exists before after, String c s = before ++ p ++ after).
  { intro G. destruct (IH _ _ G) as (Hp & before & after & ->).
    split; [exact Hp|]. exists (String c before), after. reflexivity. }
  destruct (if w then None else pincodeHead (String c s))
    as [[digits rest]|] eqn:E; [|now apply Hskip].
  destruct w; [discriminate|].
  destruct (pincodeHead_sound _ _ _ E) as (Hs & _ & Hd).
  assert (Hfound : Some digits = Some p ->
                   isValidPincode p = true
                   /\ exists before after, String c s = before ++ p ++ after).
  { intro G. injection G as <-. split.
    - unfold isValidPincode. now rewrite Hd.
    - exists EmptyString, rest. exact Hs. }
  destruct rest as [|next rest']; [now apply Hfound|].
  destruct (isWordChar next); [now apply Hskip | now apply Hfound].
Qed.

(** X16. A pincode extracted from an address is a valid pincode that
    occurs in the address, and a valid pincode on its own is extracted
    as it is. *)
Theorem extracted_pincode_valid :
  (forall address p,
     extractPincode address = Some p ->
     isValidPincode p = true
     /\ exists before after, address = before ++ p ++ after)
  /\ (forall p, isValidPincode p = true -> extractPincode p = Some p).
Proof.
  split.
  - intros address p. apply matchPincode_sound.
  - intros p H. unfold isValidPincode in H. unfold extractPincode.
    destruct (pincodeHead p) as [[digits rest]|] eqn:E; [|discriminate].
    destruct rest; [|discriminate].
    destruct (pincodeHead_sound _ _ _ E) as (Hs & _ & _).
    destruct p as [|c s]; [discriminate|].
    cbn [matchPincode]. rewrite E.
    rewrite Hs. f_equal. clear.
    induction digits as [|a d IH]; simpl; [reflexivity | now rewrite <- IH].
Qed.

Lemma extracted_pincode_valid_witness :
  isValidPincode "411001" = true
  /\ exists before after, "Shop 4, MG Road, Pune 411001, India"
                          = before ++ "411001" ++ after.
Proof.
  exact (proj1 extracted_pincode_valid "Shop 4, MG Road, Pune 411001, India"
           "411001" eq_refl).
Defined.

End ValidatorUtilsFacts.

(* ================================================================== *)
(** * Properties of the password-reset tokens                            *)
(* ================================================================== *)

Module PasswordResetFacts.
Import Mongoose PasswordResetModel.

Lemma find_in_filter {A} (p q : A -> bool) l :
  (forall x, p x = true -> q x = true) -> find p (filter q l) = find p l.
Proof.
  intro H. induction l as [|x l IH]; simpl; [reflexivity|].
  destruct (q x) eqn:Q; simpl.
  - destruct (p x); [reflexivity | exact IH].
  - destruct (p x) eqn:P; [|exact IH].
    rewrite (H x P) in Q. discriminate.
Qed.

(** X17. Cleaning up never removes a token that is still valid: at the
    time of the cleanup and at any later time the lookup of a valid token
    gives the same answer on the cleaned collection; what remains is unused
    and not expired before the cleanup, and nothing is added. *)
Theorem cleanup_keeps_valid_tokens docs nowMs :
  (forall tokenText later,
     nowMs <= later ->
     findValidToken (cleanupExpired docs nowMs) tokenText later
     = findValidToken docs tokenText later)
  /\ (forall r, In r (cleanupExpired docs nowMs) ->
        In r docs /\ used r = false /\ nowMs <= expiresAt r)
  /\ 0 <= deletedCount docs (cleanupExpired docs nowMs).
Proof.
  split; [|split].
  - intros tokenText later Hle. unfold findValidToken, cleanupExpired.
    apply find_in_filter. intros x Hx. unfold isValidFor in Hx.
    apply andb_prop in Hx. destruct Hx as [Hx Hexp].
    apply andb_prop in Hx. destruct Hx as [_ Hused].
    apply negb_true_iff in Hused. rewrite Hused, orb_false_r.
    apply negb_true_iff, Z.ltb_ge. apply Z.ltb_lt in Hexp. lia.
  - intros r Hin. unfold cleanupExpired in Hin. apply filter_In in Hin.
    destruct Hin as [Hin Hb]. apply negb_true_iff, orb_false_iff in Hb.
    destruct Hb as [Hexp Hused]. apply Z.ltb_ge in Hexp. auto.
  - unfold deletedCount, cleanupExpired.
    pose proof (StatsScopeFacts.filter_length_le
                  (fun r => negb ((expiresAt r <? nowMs) || used r)) docs).
    lia.
Qed.

Lemma cleanup_keeps_valid_tokens_witness :
  findValidToken
    (cleanupExpired
       [ {| reset_id := 1; reset_userId := 7; email := "a@b.in"; token := "t1";
            expiresAt := 500; used := false |};
         {| reset_id := 2; reset_userId := 7; email := "a@b.in"; token := "t2";
            expiresAt := 5000; used := false |} ] 1000) "t2" 2000
  = findValidToken
      [ {| reset_id := 1; reset_userId := 7; email := "a@b.in"; token := "t1";
           expiresAt := 500; used := false |};
        {| reset_id := 2; reset_userId := 7; email := "a@b.in"; token := "t2";
           expiresAt := 5000; used := false |} ] "t2" 2000.
Proof.
  apply (proj1 (cleanup_keeps_valid_tokens _ 1000)). lia.
Defined.

Lemma markAsUsed_split a r b :
  Forall (fun x => reset_id x <> reset_id r) a ->
  markAsUsed (a ++ r :: b) r = (a ++ withUsed r :: b)%list.
Proof.
  intro Ha. induction Ha as [|x a Hx Ha IH]; simpl.
  - now rewrite Z.eqb_refl.
  - destruct (Z.eqb_spec (reset_id x) (reset_id r)); [contradiction | now rewrite IH].
Qed.

Lemma in_split_unique_id docs r :
  NoDup (map reset_id docs) -> In r docs ->
  exists a b, docs = (a ++ r :: b)%list
              /\ Forall (fun x => reset_id x <> reset_id r) a
              /\ Forall (fun x => reset_id x <> reset_id r) b.
Proof.
  intros Hnd Hin. apply in_split in Hin. destruct Hin as (a & b & ->).
  exists a, b. split; [reflexivity|].
  rewrite map_app in Hnd. cbn [map] in Hnd.
  pose proof (NoDup_remove_2 _ _ _ Hnd) as Hnot.
  split; apply Forall_forall; intros x Hx Heq; apply Hnot; apply in_or_app;
    [left | right]; rewrite <- Heq; now apply in_map.
Qed.

(** X18. A reset token works once: under the indexes on [_id] and on
    [token], after a successful reset the token is refused at every later
    time, no token of that user is valid any more, and the tokens of other
    users are all still there. *)
Theorem reset_consumes_tokens userExists docs tokenText nowMs docs' :
  NoDup (map reset_id docs) ->
  NoDup (map token docs) ->
  resetPassword userExists docs tokenText nowMs = (ResetDone, docs') ->
  exists r,
    findValidToken docs tokenText nowMs = Some r
    /\ (forall later, findValidToken docs' tokenText later = None)
    /\ (forall anyToken later r',
          findValidToken docs' anyToken later = Some r' ->
          reset_userId r' <> reset_userId r)
    /\ (forall x, In x docs -> reset_userId x <> reset_userId r -> In x docs')
    /\ fst (resetPassword userExists docs' tokenText nowMs)
       = ResetRejected "Invalid or expired reset token".
Proof.
  intros Hid Htok E. unfold resetPassword in E.
  destruct (findValidToken docs tokenText nowMs) as [r|] eqn:F; [|discriminate].
  destruct (userExists (reset_userId r)); [|discriminate].
  injection E as <-. exists r. split; [reflexivity|].
  unfold findValidToken in F. apply find_some in F. destruct F as [Hin Hvalid].
  destruct (in_split_unique_id docs r Hid Hin) as (a & b & -> & Ha & Hb).
  rewrite (markAsUsed_split a r b Ha).
  assert (Hmem : forall x,
            In x (deleteOtherTokens (a ++ withUsed r :: b)
                    (reset_userId r) (reset_id r)) ->
            x = withUsed r
            \/ (In x (a ++ b) /\ reset_userId x <> reset_userId r)).
  { intros x Hx. unfold deleteOtherTokens in Hx. apply filter_In in Hx.
    destruct Hx as [Hx Hkeep].
    apply in_app_or in Hx. destruct Hx as [Hx|[Hx|Hx]]; [|now left|].
    - right. split; [apply in_or_app; now left|].
      apply negb_true_iff, andb_false_iff in Hkeep.
      destruct Hkeep as [Hu|Hk]; [now apply Z.eqb_neq in Hu|].
      apply negb_false_iff, Z.eqb_eq in Hk.
      rewrite Forall_forall in Ha. now elim (Ha x Hx).
    - right. split; [apply in_or_app; now right|].
      apply negb_true_iff, andb_false_iff in Hkeep.
      destruct Hkeep as [Hu|Hk]; [now apply Z.eqb_neq in Hu|].
      apply negb_false_iff, Z.eqb_eq in Hk.
      rewrite Forall_forall in Hb. now elim (Hb x Hx). }
  assert (Hother : forall anyToken later r',
            findValidToken (deleteOtherTokens (a ++ withUsed r :: b)
                              (reset_userId r) (reset_id r)) anyToken later
            = Some r' -> reset_userId r' <> reset_userId r).
  { intros t later r' G. unfold findValidToken in G. apply find_some in G.
    destruct G as [Hx Hv]. destruct (Hmem r' Hx) as [->|[_ Hne]]; [|exact Hne].
    unfold isValidFor in Hv. cbn [used withUsed] in Hv.
    rewrite andb_false_r in Hv. discriminate. }
  assert (Hnone : forall later,
            findValidToken (deleteOtherTokens (a ++ withUsed r :: b)
                              (reset_userId r) (reset_id r)) tokenText later
            = None).
  { intro later.
    destruct (findValidToken _ tokenText later) as [r'|] eqn:G; [|reflexivity].
    pose proof (Hother _ _ _ G) as Hne.
    unfold findValidToken in G. apply find_some in G. destruct G as [Hx Hv].
    destruct (Hmem r' Hx) as [->|[Hx' _]]; [now elim Hne|].
    unfold isValidFor in Hv, Hvalid.
    apply andb_prop in Hv. destruct Hv as [Hv _].
    apply andb_prop in Hv. destruct Hv as [Hv _]. apply String.eqb_eq in Hv.
    apply andb_prop in Hvalid. destruct Hvalid as [Hvalid _].
    apply andb_prop in Hvalid. destruct Hvalid as [Hvalid _].
    apply String.eqb_eq in Hvalid.
    rewrite map_app in Htok. cbn [map] in Htok.
    apply NoDup_remove_2 in Htok. elim Htok.
    rewrite Hvalid, <- Hv, <- map_app. now apply in_map. }
  split; [exact Hnone|]. split; [exact Hother|]. split.
  - intros x Hx Hne. unfold deleteOtherTokens. apply filter_In. split.
    + apply in_app_or in Hx. apply in_or_app.
      destruct Hx as [Hx|[Hx|Hx]];
        [now left | subst x; now elim Hne | right; now right].
    + apply negb_true_iff, andb_false_iff. left. now apply Z.eqb_neq.
  - unfold resetPassword. now rewrite Hnone.
Qed.

Lemma reset_consumes_tokens_witness :
  exists r,
    findValidToken
      [ {| reset_id := 1; reset_userId := 7; email := "a@b.in"; token := "t1";
           expiresAt := 5000; used := false |};
        {| reset_id := 2; reset_userId := 7; email := "a@b.in"; token := "t2";
           expiresAt := 5000; used := false |} ] "t2" 1000 = Some r.
Proof.
  destruct (reset_consumes_tokens (fun _ => true)
              [ {| reset_id := 1; reset_userId := 7; email := "a@b.in";
                   token := "t1"; expiresAt := 5000; used := false |};
                {| reset_id := 2; reset_userId := 7; email := "a@b.in";
                   token := "t2"; expiresAt := 5000; used := false |} ]
              "t2" 1000
              [ {| reset_id := 2; reset_userId := 7; email := "a@b.in";
                   token := "t2"; expiresAt := 5000; used := true |} ])
    as (r & H & _).
  - repeat constructor; cbn; intuition discriminate.
  - repeat constructor; cbn; intuition discriminate.
  - reflexivity.
  - exists r. exact H.
Defined.

End PasswordResetFacts.

(* ================================================================== *)
(** * Properties of the error middleware                                 *)
(* ================================================================== *)

Module ErrorMiddlewareFacts.
Import ErrorMiddleware.

(** X19. The error handler never answers 200: its status is the one set
    before the error unless that was 200, in which case it is 500, or one
    of 400, 401, 403, 404 and 429; an error whose message mentions CORS is
    always answered 403; and in production an answer with status 500
    carries the fixed text instead of the message of the error. *)
Theorem error_status_never_200 err resStatus nodeEnv :
  statusCode (errorHandler err resStatus nodeEnv) <> 200
  /\ In (statusCode (errorHandler err resStatus nodeEnv))
        [resStatus; 500; 404; 400; 401; 429; 403]
  /\ (includes (message err) "CORS" = true ->
      message err <> EmptyString ->
      statusCode (errorHandler err resStatus nodeEnv) = 403
      /\ error (errorHandler err resStatus nodeEnv) = "CORS policy violation")
  /\ (nodeEnv = Some "production" ->
      statusCode (errorHandler err resStatus nodeEnv) = 500 ->
      error (errorHandler err resStatus nodeEnv) = "Internal server error").
Proof.
  unfold errorHandler, override. cbv zeta. cbn [statusCode error].
  split; [|split; [|split]].
  - destruct (Js.truthy (Some (message err)) && includes (message err) "CORS");
      [discriminate|].
    destruct (isSome 429 (status err)); [discriminate|].
    destruct (String.eqb (name err) "TokenExpiredError"); [discriminate|].
    destruct (String.eqb (name err) "JsonWebTokenError"); [discriminate|].
    destruct (String.eqb (name err) "ValidationError"); [discriminate|].
    destruct (isSome 11000 (code err)); [discriminate|].
    destruct (String.eqb (name err) "CastError" && isKind "ObjectId" (kind err));
      [discriminate|].
    cbn [fst]. destruct (Z.eqb_spec resStatus 200); [discriminate | assumption].
  - destruct (Js.truthy (Some (message err)) && includes (message err) "CORS");
      [cbn; tauto|].
    destruct (isSome 429 (status err)); [cbn; tauto|].
    destruct (String.eqb (name err) "TokenExpiredError"); [cbn; tauto|].
    destruct (String.eqb (name err) "JsonWebTokenError"); [cbn; tauto|].
    destruct (String.eqb (name err) "ValidationError"); [cbn; tauto|].
    destruct (isSome 11000 (code err)); [cbn; tauto|].
    destruct (String.eqb (name err) "CastError" && isKind "ObjectId" (kind err));
      [cbn; tauto|].
    cbn [fst]. destruct (Z.eqb_spec resStatus 200); [right; now left | now left].
  - intros Hc Hm. rewrite Hc.
    destruct (message err); [now elim Hm|]. cbn [Js.truthy andb fst snd].
    split; [reflexivity|]. now rewrite andb_false_r.
  - intros -> H. cbn [isKind]. rewrite H. reflexivity.
Qed.

Lemma error_status_never_200_witness :
  statusCode (errorHandler
                {| name := "Error"; kind := None; code := None; status := None;
                   message := "Not allowed by CORS"; validationMessages := [] |}
                200 (Some "production")) = 403.
Proof.
  apply (proj1 (proj2 (proj2 (error_status_never_200
           {| name := "Error"; kind := None; code := None; status := None;
              message := "Not allowed by CORS"; validationMessages := [] |}
           200 (Some "production"))))).
  - reflexivity.
  - discriminate.
Defined.

End ErrorMiddlewareFacts.
